(** * caddy-local-dns: the reconciliation engine of [module.go]

    A shallow embedding of the Caddy module [local_dns]: the global [App]
    with its provider registry ([App.Provision], [App.createProvider]) and
    the per-site [Handler] ([Handler.Provision], [Handler.ServeHTTP],
    [Handler.handleDomain]).

    Go strings are byte strings and are modelled by [string]; Go maps are
    [gmap]s; an [error] return value is an [option error] ([None] is Go's
    [nil]).  Calls into the DNS backend, and log lines written through the
    zap logger, are effects: they are threaded through an explicit state
    that also records which provider operations were invoked. *)

From Stdlib Require Import ZArith String Ascii List Bool Lia.
From stdpp Require Import base option list strings gmap fin_maps.

Local Open Scope string_scope.
Local Open Scope Z_scope.

(** ** Errors

    [errors.New] and [fmt.Errorf] without the verb [%w] build a message;
    [fmt.Errorf] with [%w] builds a message and keeps the wrapped cause. *)

Inductive error : Type :=
| errorString (msg : string)
| wrapError (prefix : string) (cause : error).

Fixpoint Error (e : error) : string :=
  match e with
  | errorString msg => msg
  | wrapError prefix cause => prefix +:+ Error cause
  end.

Definition Unwrap (e : error) : option error :=
  match e with
  | errorString _ => None
  | wrapError _ cause => Some cause
  end.

Global Instance error_eq_dec : EqDecision error.
Proof. solve_decision. Defined.

(** The spec's names for the errors of [Handler.handleDomain]. *)
Definition ProviderNotFound (name : string) : error :=
  errorString ("provider " +:+ name +:+ " not found").

Definition NoIPConfigured : error :=
  errorString
    "no IP address configured: set either ip_override in handler or caddy_ip in global config".

Definition InvalidIP (ip : string) : error :=
  errorString ("invalid IP address: " +:+ ip).

(** ** Strings: [strings.LastIndex] and slicing *)

(** [HasPrefix s p]: [p] is a prefix of [s]. *)
Fixpoint HasPrefix (s p : string) {struct p} : bool :=
  match p, s with
  | EmptyString, _ => true
  | String _ _, EmptyString => false
  | String b p', String a s' => if Ascii.eqb a b then HasPrefix s' p' else false
  end.

(** [strings.LastIndex s substr]: the index of the last instance of
    [substr] in [s], or [-1] when there is none. *)
Fixpoint LastIndex (s substr : string) : Z :=
  match s with
  | EmptyString => if HasPrefix s substr then 0 else -1
  | String _ s' =>
      let r := LastIndex s' substr in
      if 0 <=? r then r + 1
      else if HasPrefix s substr then 0 else -1
  end.

(** The slice expression [s[:hi]] for [0 <= hi <= len(s)]. *)
Definition slice_to (s : string) (hi : Z) : string :=
  String.substring 0 (Z.to_nat hi) s.

(** Lines 144-149 of [Handler.ServeHTTP]: the host with its port removed. *)
Definition extractDomain (host : string) : string :=
  let domain := host in
  let colonIndex := LastIndex domain ":" in
  if negb (colonIndex =? -1) then slice_to domain colonIndex else domain.

(** A string holds no colon. *)
Fixpoint no_colon (s : string) : bool :=
  match s with
  | EmptyString => true
  | String a s' => negb (Ascii.eqb a ":"%char) && no_colon s'
  end.

Example extractDomain_port :
  extractDomain "service.example.com:8080" = "service.example.com".
Proof. reflexivity. Qed.

Example extractDomain_ipv6 : extractDomain "[::1]:443" = "[::1]".
Proof. reflexivity. Qed.

(** ** Logging (zap)

    A log line carries the name of the logger that wrote it, a level, a
    message and structured fields. *)

Inductive Level : Type := InfoLevel | ErrorLevel.

Inductive Field : Type :=
| zString (key val : string)
| zBool (key : string) (val : bool)
| zError (err : error).

Record LogEntry : Type := mkLogEntry {
  logger : string;
  level : Level;
  message : string;
  fields : list Field
}.

(** ** Data model *)

(** Modelled from the spec: the declaration of [provider.Record] is not in
    [module.go], which reads its fields [IP] and [Enabled]; the spec gives
    a record the domain name, the bound IP address and an enabled flag. *)
Record DNSRecord : Type := mkDNSRecord {
  Domain : string;
  IP : string;
  Enabled : bool
}.

(** The interface [provider.DNSService], as [module.go] calls it.  An
    operation is a blocking call that may change the state [W] of the
    world outside the process.  [FindRecord] returns Go's pair
    [(existing, err)]. *)
Record DNSService (W : Type) : Type := mkDNSService {
  FindRecord : string -> W -> (option DNSRecord * option error) * W;
  CreateRecord : string -> string -> W -> option error * W;
  UpdateRecord : string -> string -> W -> option error * W
}.
Arguments mkDNSService {W}.
Arguments FindRecord {W}.
Arguments CreateRecord {W}.
Arguments UpdateRecord {W}.

(** [ProviderConfig]; the fields [Type] and [DNSService] carry a trailing
    underscore, the first being a keyword, the second the interface. *)
Record ProviderConfig : Type := mkProviderConfig {
  Type_ : string;
  Hostname : string;
  APIKey : string;
  APISecret : string;
  DNSService_ : string;
  Insecure : bool
}.

(** [App].  The logger is the log of the state below.  The entries of
    [Providers] are the configurations that the pointers of the Go map
    point to. *)
Record App (W : Type) : Type := mkApp {
  Providers : gmap string ProviderConfig;
  CaddyIP : string;
  Debug : bool;
  clients : gmap string (DNSService W)
}.
Arguments mkApp {W}.
Arguments Providers {W}.
Arguments CaddyIP {W}.
Arguments Debug {W}.
Arguments clients {W}.

(** [a.clients = m]. *)
Definition set_clients {W} (m : gmap string (DNSService W)) (a : App W) : App W :=
  {| Providers := Providers a; CaddyIP := CaddyIP a; Debug := Debug a;
     clients := m |}.

(** [Handler]; the pointer [h.app] is passed to its methods as the [App]
    it points to. *)
Record Handler : Type := mkHandler {
  Provider : string;
  IPOverride : string
}.

(** ** Effects *)

(** An invocation of a provider operation. *)
Inductive Call : Type :=
| CallFind (domain : string)
| CallCreate (domain ip : string)
| CallUpdate (domain ip : string).

Definition is_write (c : Call) : bool :=
  match c with
  | CallFind _ => false
  | CallCreate _ _ | CallUpdate _ _ => true
  end.

(** The number of writes in a trace of calls. *)
Definition writes (l : list Call) : nat := length (List.filter is_write l).

(** The state a request runs in: the world outside, the provider
    operations invoked so far (oldest first) and the log written so far. *)
Record State (W : Type) : Type := mkState {
  backend : W;
  calls : list Call;
  logs : list LogEntry
}.
Arguments mkState {W}.
Arguments backend {W}.
Arguments calls {W}.
Arguments logs {W}.

Definition M (W A : Type) : Type := State W -> A * State W.

Definition ret {W A} (x : A) : M W A := fun s => (x, s).

Definition bind {W A B} (c : M W A) (k : A -> M W B) : M W B :=
  fun s => let (x, s') := c s in k x s'.

Declare Scope go_scope.
Delimit Scope go_scope with go.
Notation "'run' x ':=' c 'in' k" := (bind c (fun x => k))
  (at level 10, x pattern, c at level 100, k at level 200) : go_scope.
Notation "c ';;;' k" := (bind c (fun _ => k))
  (at level 100, k at level 200, right associativity) : go_scope.

(** [l.Info(msg, fields...)] and [l.Error(msg, fields...)]. *)
Definition log {W} (name : string) (lv : Level) (msg : string) (fs : list Field) : M W unit :=
  fun s => (tt, {| backend := backend s; calls := calls s;
                   logs := (logs s ++ [mkLogEntry name lv msg fs])%list |}).

(** A call of a provider operation: it runs on the world and is recorded. *)
Definition invoke {W A} (c : Call) (op : W -> A * W) : M W A :=
  fun s => let (x, w) := op (backend s) in
           (x, {| backend := w; calls := (calls s ++ [c])%list; logs := logs s |}).

(** ** The module *)

Section Module.

Context {W : Type}.

(** [net.ParseIP] of Go's standard library: the parsed address, or
    [None] (Go's [nil]) when the text is not a valid IP address. *)
Variable ParseIP : string -> option (list Z).

(** [provider.NewOPNsenseProvider(hostname, apiKey, apiSecret, dnsService,
    insecure, logger, debug)], a constructor of this repository outside
    [module.go]: it returns an instance or an error.  The logger argument
    is the log of the state. *)
Variable NewOPNsenseProvider :
  string -> string -> string -> string -> bool -> bool -> DNSService W + error.

Local Open Scope go_scope.

(** [App.createProvider], lines 104-111. *)
Definition createProvider (a : App W) (config : ProviderConfig) : DNSService W + error :=
  if decide (Type_ config = "opnsense") then
    NewOPNsenseProvider (Hostname config) (APIKey config) (APISecret config)
                        (DNSService_ config) (Insecure config) (Debug a)
  else
    inr (errorString ("unsupported provider type: " +:+ Type_ config)).

(** The loop of [App.Provision], lines 71-91, over the entries of
    [a.Providers] in the order [order] in which [range] yields them.  It
    returns the error, the [App] with the clients stored so far, and the
    log. *)
Fixpoint provisionProviders (a : App W) (order : list (string * ProviderConfig))
         (lg : list LogEntry) : option error * App W * list LogEntry :=
  match order with
  | [] => (None, a, lg)
  | (name, config) :: rest =>
      match createProvider a config with
      | inr err =>
          (Some (wrapError ("failed to create provider " +:+ name +:+ ": ") err), a, lg)
      | inl client =>
          let a := set_clients (<[name := client]> (clients a)) a in
          let logMsg := "initialized DNS provider" in
          let fields := [zString "name" name; zString "type" (Type_ config)] in
          let fields :=
            if Debug a then
              (fields ++ [zString "hostname" (Hostname config);
                          zString "dns_service" (DNSService_ config);
                          zBool "insecure" (Insecure config)])%list
            else fields in
          provisionProviders a rest (lg ++ [mkLogEntry "local_dns" InfoLevel logMsg fields])%list
      end
  end.

(** [App.Provision], lines 59-94.  Go's [range] over a map yields its
    entries in an unspecified order: [order] is that order, a permutation
    of [map_to_list (Providers a)]. *)
Definition Provision (order : list (string * ProviderConfig)) (a : App W)
           (lg : list LogEntry) : option error * App W * list LogEntry :=
  let a := set_clients ∅ a in
  if negb (String.eqb (CaddyIP a) "") then
    match ParseIP (CaddyIP a) with
    | None => (Some (errorString ("invalid caddy_ip address: " +:+ CaddyIP a)), a, lg)
    | Some _ => provisionProviders a order lg
    end
  else
    provisionProviders a order lg.

(** [Handler.Provision], lines 121-140; [ctxApp] is the result of
    [ctx.App] ([None] when it fails).  It returns the error, or the [App]
    that [h.app] is bound to. *)
Definition Handler_Provision (ctxApp : option (App W)) (h : Handler) : App W + error :=
  match ctxApp with
  | None => inr (errorString "local_dns app not configured")
  | Some a =>
      if String.eqb (Provider h) "" then
        inr (errorString "provider name is required")
      else
        match clients a !! Provider h with
        | None =>
            inr (errorString ("provider " +:+ Provider h +:+ " not found in global configuration"))
        | Some _ => inl a
        end
  end.

(** Lines 166-170 of [Handler.handleDomain]: the IP to use. *)
Definition desiredIP (a : App W) (h : Handler) : string :=
  let ip := IPOverride h in
  if String.eqb ip "" then CaddyIP a else ip.

(** [h.logger], the logger that [ctx.Logger(h)] names after the handler. *)
Definition hlog := @log W "http.handlers.local_dns".

(** [Handler.handleDomain], lines 160-207. *)
Definition handleDomain (a : App W) (h : Handler) (domain : string) : M W (option error) :=
  match clients a !! Provider h with
  | None => ret (Some (errorString ("provider " +:+ Provider h +:+ " not found")))
  | Some provider =>
      let ip := desiredIP a h in
      if String.eqb ip "" then
        ret (Some (errorString
          "no IP address configured: set either ip_override in handler or caddy_ip in global config"))
      else
        match ParseIP ip with
        | None => ret (Some (errorString ("invalid IP address: " +:+ ip)))
        | Some _ =>
            hlog InfoLevel "handling domain"
                 [zString "domain" domain; zString "ip" ip; zString "provider" (Provider h)] ;;;
            run (existing, err) := invoke (CallFind domain) (FindRecord provider domain) in
            match err with
            | Some err => ret (Some (wrapError "failed to find existing record: " err))
            | None =>
                match existing with
                | Some existing =>
                    if String.eqb (IP existing) ip && Enabled existing then
                      hlog InfoLevel "DNS record already exists and is correct"
                           [zString "domain" domain] ;;;
                      ret None
                    else
                      hlog InfoLevel "updating existing DNS record"
                           [zString "domain" domain] ;;;
                      invoke (CallUpdate domain ip) (UpdateRecord provider domain ip)
                | None =>
                    hlog InfoLevel "creating new DNS record" [zString "domain" domain] ;;;
                    invoke (CallCreate domain ip) (CreateRecord provider domain ip)
                end
            end
        end
  end.

(** Steps 1 to 3 of the engine passed: the provider resolves to [p] and
    the desired IP is present and valid, so that [handleDomain] goes on
    to query the provider. *)
Definition reaches_query (a : App W) (h : Handler) (p : DNSService W) : Prop :=
  clients a !! Provider h = Some p /\
  desiredIP a h <> "" /\
  is_Some (ParseIP (desiredIP a h)).

(** The inbound request and the response writer are opaque to the
    module, which reads the request's [Host] only. *)
Context {Request ResponseWriter : Type}.
Variable Host : Request -> string.

(** [Handler.ServeHTTP], lines 142-158; [next] is [next.ServeHTTP]. *)
Definition ServeHTTP (a : App W) (h : Handler) (w : ResponseWriter) (r : Request)
           (next : ResponseWriter -> Request -> M W (option error)) : M W (option error) :=
  let domain := extractDomain (Host r) in
  run err := handleDomain a h domain in
  match err with
  | Some err =>
      hlog ErrorLevel "failed to handle domain" [zString "domain" domain; zError err]
  | None => ret tt
  end ;;;
  next w r.

End Module.

Arguments ServeHTTP {W} ParseIP {Request ResponseWriter} Host a h w r next.

(** ** The provider contract of the spec *)

(** Modelled from the spec: the backends live in the package [provider],
    outside [module.go].  The spec's contract has [FindRecord] return a
    read-only snapshot, [CreateRecord] create the address record and
    [UpdateRecord] set the address and ensure the record is enabled: a
    query leaves the world as it is, and after a write of [(domain, ip)]
    that succeeded a query of [domain] succeeds with a record bound to
    [ip] and enabled. *)
Record honours_contract {W} (p : DNSService W) : Prop := mkContract {
  find_reads : forall d w, snd (FindRecord p d w) = w;
  create_binds : forall d ip w w',
    CreateRecord p d ip w = (None, w') ->
    exists r, FindRecord p d w' = ((Some r, None), w') /\ IP r = ip /\ Enabled r = true;
  update_binds : forall d ip w w',
    UpdateRecord p d ip w = (None, w') ->
    exists r, FindRecord p d w' = ((Some r, None), w') /\ IP r = ip /\ Enabled r = true
}.

(** The record that a query of [domain] returns in the world [w] is
    bound to [ip] and enabled. *)
Definition already_correct {W} (p : DNSService W) (domain ip : string) (w : W) : bool :=
  match fst (FindRecord p domain w) with
  | (Some r, None) => String.eqb (IP r) ip && Enabled r
  | _ => false
  end.

(** [n] reconciliations of the same domain in sequence: the state after
    the last one. *)
Fixpoint reconcile_times {W} (ParseIP : string -> option (list Z)) (a : App W)
         (h : Handler) (domain : string) (n : nat) (s : State W) : State W :=
  match n with
  | O => s
  | S n' => reconcile_times ParseIP a h domain n' (snd (handleDomain ParseIP a h domain s))
  end.



(** ** Instances to run the module on

    The theorems below hold for every [net.ParseIP], constructor and
    backend.  The instances of this section serve to evaluate the module
    on concrete configurations. *)

Definition is_digit (c : ascii) : bool :=
  let n := Z.of_nat (nat_of_ascii c) in (48 <=? n) && (n <=? 57).

(** The fields of a dotted-decimal address, read as Go's
    [net/netip.parseIPv4Fields] reads them: four decimal octets of at most
    255, no leading zero, no empty field.  [start] holds at the first
    byte, [prevDot] after a dot. *)
Fixpoint parseIPv4Fields (s : string) (start prevDot : bool) (val : Z) (digLen : nat)
         (fs : list Z) : option (list Z) :=
  match s with
  | EmptyString => if (length fs <? 3)%nat then None else Some (fs ++ [val])%list
  | String c s' =>
      if is_digit c then
        if (digLen =? 1)%nat && (val =? 0) then None
        else
          let val := val * 10 + (Z.of_nat (nat_of_ascii c) - 48) in
          if 255 <? val then None
          else parseIPv4Fields s' false false val (S digLen) fs
      else if Ascii.eqb c "."%char then
        if start || prevDot || (match s' with EmptyString => true | _ => false end) then None
        else if (length fs =? 3)%nat then None
        else parseIPv4Fields s' false true 0 O (fs ++ [val])%list
      else None
  end.

(** A stand-in for [net.ParseIP] on dotted-decimal IPv4 text, in the
    16-byte form; any other text is rejected. *)
Definition sampleParseIP (s : string) : option (list Z) :=
  match parseIPv4Fields s true false 0 O [] with
  | Some fs => Some ([0;0;0;0;0;0;0;0;0;0;255;255] ++ fs)%list
  | None => None
  end.

(** An in-memory backend: the world is the table of records. *)
Definition memProvider : DNSService (gmap string DNSRecord) :=
  {| FindRecord := fun d w => ((w !! d, None), w);
     CreateRecord := fun d ip w => (None, <[d := mkDNSRecord d ip true]> w);
     UpdateRecord := fun d ip w => (None, <[d := mkDNSRecord d ip true]> w) |}.

(** A backend that is down: every operation fails. *)
Definition downProvider : DNSService (gmap string DNSRecord) :=
  {| FindRecord := fun d w => ((None, Some (errorString "connection refused")), w);
     CreateRecord := fun d ip w => (Some (errorString "connection refused"), w);
     UpdateRecord := fun d ip w => (Some (errorString "connection refused"), w) |}.

(** A constructor that accepts the DNS services of the README. *)
Definition sampleNewOPNsenseProvider (hostname apiKey apiSecret dnsService : string)
           (insecure debug : bool) : DNSService (gmap string DNSRecord) + error :=
  if String.eqb dnsService "unbound" || String.eqb dnsService "dnsmasq" then inl memProvider
  else inr (errorString ("unsupported DNS service: " +:+ dnsService)).


Definition sampleConfig : ProviderConfig :=
  mkProviderConfig "opnsense" "opnsense.local" "key" "secret" "unbound" true.

Definition piholeConfig : ProviderConfig :=
  mkProviderConfig "pihole" "pi.hole" "key" "secret" "" false.

(** The README's configuration, provisioned. *)
Definition sampleApp : App (gmap string DNSRecord) :=
  mkApp {[ "opnsense" := sampleConfig ]} "192.168.1.50" false {[ "opnsense" := memProvider ]}.

Definition downApp : App (gmap string DNSRecord) :=
  mkApp {[ "opnsense" := sampleConfig ]} "192.168.1.50" false {[ "opnsense" := downProvider ]}.

Definition sampleHandler : Handler := mkHandler "opnsense" "".

Definition emptyState : State (gmap string DNSRecord) := mkState ∅ [] [].

Definition correctState : State (gmap string DNSRecord) :=
  mkState {[ "svc.local" := mkDNSRecord "svc.local" "192.168.1.50" true ]} [] [].

Definition staleState : State (gmap string DNSRecord) :=
  mkState {[ "svc.local" := mkDNSRecord "svc.local" "10.0.0.1" true ]} [] [].

(** A handler with an override, and one with a malformed override. *)
Definition overrideHandler : Handler := mkHandler "opnsense" "10.0.0.7".

Definition malformedHandler : Handler := mkHandler "opnsense" "999.1.1.1".


Definition malformedIPApp : App (gmap string DNSRecord) :=
  mkApp {[ "opnsense" := sampleConfig ]} "999.1.1.1" false ∅.

Definition mixedApp : App (gmap string DNSRecord) :=
  mkApp {[ "opnsense" := sampleConfig; "pi" := piholeConfig ]} "192.168.1.50" true ∅.

(** A handler whose provider is not in the registry. *)
Definition ghostHandler : Handler := mkHandler "ghost" "".

(** Requests are their host; the next handler answers without error. *)
Definition sampleNext : unit -> string -> M (gmap string DNSRecord) (option error) :=
  fun _ _ => ret None.

Definition sampleServe (a : App (gmap string DNSRecord)) (h : Handler) (host : string) :
  M (gmap string DNSRecord) (option error) :=
  ServeHTTP sampleParseIP (fun r : string => r) a h tt host sampleNext.

(** ** Parsing the site directive *)

Section Caddyfile.

(** [caddyfile.Dispenser] of Caddy, a cursor over the tokens of the
    Caddyfile: [d.Next()] and [d.NextArg()] move the cursor and tell
    whether they did, [d.Val()] reads the token under the cursor. *)
Context {D : Type}.
Variable Next : D -> bool * D.
Variable NextArg : D -> bool * D.
Variable Val : D -> string.

(** [Handler.UnmarshalCaddyfile], lines 266-274.  [fuel] bounds the
    number of iterations of the loop, and the result is [None] when it is
    used up; otherwise it is the error, the handler and the dispenser as
    the method leaves them. *)
Fixpoint Handler_UnmarshalCaddyfile (fuel : nat) (h : Handler) (d : D)
  : option (option error * Handler * D) :=
  match fuel with
  | O => None
  | S fuel' =>
      let (more, d) := Next d in
      if more then
        let (arg, d) := NextArg d in
        let h := if arg then mkHandler (Val d) (IPOverride h) else h in
        Handler_UnmarshalCaddyfile fuel' h d
      else Some (None, h, d)
  end.

(** [parseHandler], lines 325-331, on the dispenser of its helper: the
    handler starts as the zero value. *)
Definition parseHandler (fuel : nat) (d : D) : option ((Handler + error) * D) :=
  let m := mkHandler "" "" in
  match Handler_UnmarshalCaddyfile fuel m d with
  | None => None
  | Some (Some err, _, d) => Some (inr err, d)
  | Some (None, m, d) => Some (inl m, d)
  end.

End Caddyfile.

(** [iterates Next NextArg d d']: the loop of [Handler.UnmarshalCaddyfile],
    started on the dispenser [d], begins an iteration on the dispenser
    [d'].  An iteration is followed by another when its [d.Next()]
    returns true, and the next one begins where its [d.NextArg()] left
    the dispenser. *)
Inductive iterates {D : Type} (Next NextArg : D -> bool * D) : D -> D -> Prop :=
| iterates_first (d : D) : iterates Next NextArg d d
| iterates_next (d d' : D) :
    fst (Next d) = true ->
    iterates Next NextArg (snd (NextArg (snd (Next d)))) d' ->
    iterates Next NextArg d d'.

(** ** Reading traces and logs *)

(** The domain a provider operation was invoked on. *)
Definition call_domain (c : Call) : string :=
  match c with
  | CallFind d | CallCreate d _ | CallUpdate d _ => d
  end.

Definition is_find (c : Call) : bool :=
  match c with CallFind _ => true | _ => false end.

Definition is_create (c : Call) : bool :=
  match c with CallCreate _ _ => true | _ => false end.

Definition is_update (c : Call) : bool :=
  match c with CallUpdate _ _ => true | _ => false end.

(** A line with the message [msg] is in the log [l]. *)
Definition logged (msg : string) (l : list LogEntry) : bool :=
  existsb (fun e => String.eqb (message e) msg) l.

(** A dispenser over the tokens of one line: the token under the cursor
    and the tokens to come. *)
Definition sampleDispenserNext (d : string * list string)
  : bool * (string * list string) :=
  match snd d with
  | [] => (false, d)
  | t :: rest => (true, (t, rest))
  end.

Definition sampleDispenserVal (d : string * list string) : string := fst d.

(** * Properties *)

(** ** Domain extraction *)

Lemma HasPrefix_colon (a : ascii) (s : string) :
  HasPrefix (String a s) ":" = Ascii.eqb a ":"%char.
Proof. simpl. destruct (Ascii.eqb a ":"%char); reflexivity. Qed.

Lemma LastIndex_ge (s substr : string) : -1 <= LastIndex s substr.
Proof.
  induction s as [|a s IH]; cbn [LastIndex].
  - destruct (HasPrefix "" substr); lia.
  - destruct (Z.leb_spec 0 (LastIndex s substr)); [lia|].
    destruct (HasPrefix (String a s) substr); lia.
Qed.

Lemma LastIndex_no_colon (s : string) :
  no_colon s = true -> LastIndex s ":" = -1.
Proof.
  induction s as [|a s IH]; [reflexivity|].
  cbn [no_colon]. intros [Ha Hs]%andb_true_iff.
  cbn [LastIndex]. rewrite (IH Hs), HasPrefix_colon.
  apply negb_true_iff in Ha. rewrite Ha. reflexivity.
Qed.

Lemma LastIndex_last_colon (pre post : string) :
  no_colon post = true ->
  LastIndex (pre +:+ ":" +:+ post) ":" = Z.of_nat (String.length pre).
Proof.
  intros Hpost. induction pre as [|a pre IH].
  - change (LastIndex (String ":" post) ":" = 0).
    cbn [LastIndex]. rewrite (LastIndex_no_colon _ Hpost). reflexivity.
  - change (LastIndex (String a (pre +:+ ":" +:+ post)) ":"
            = Z.of_nat (S (String.length pre))).
    cbn [LastIndex]. rewrite IH.
    destruct (Z.leb_spec 0 (Z.of_nat (String.length pre))); lia.
Qed.

Lemma substring_append_l (pre rest : string) :
  String.substring 0 (String.length pre) (pre +:+ rest) = pre.
Proof.
  induction pre as [|a pre IH]; simpl.
  - destruct rest; reflexivity.
  - rewrite IH. reflexivity.
Qed.

(** A host has no colon, or splits at its last colon. *)
Lemma last_colon_split (host : string) :
  no_colon host = true \/
  exists pre post : string, host = pre +:+ ":" +:+ post /\ no_colon post = true.
Proof.
  induction host as [|a host IH]; [left; reflexivity|].
  destruct IH as [Hnone | (pre & post & -> & Hpost)].
  - destruct (Ascii.eqb_spec a ":"%char) as [-> | Hne].
    + right. exists "", host. split; [reflexivity|exact Hnone].
    + left. cbn [no_colon]. rewrite Hnone.
      apply Ascii.eqb_neq in Hne. rewrite Hne. reflexivity.
  - right. exists (String a pre), post. split; [reflexivity|exact Hpost].
Qed.

(** C8. The reconciled domain is the host up to its last colon when the
    host has a colon, and the host itself when it has none, and every host
    is of one of the two kinds; the host [service.example.com:8080] gives
    [service.example.com], and [service.example.com] is unchanged. *)
Theorem extractDomain_last_colon :
  (forall pre post : string,
      no_colon post = true -> extractDomain (pre +:+ ":" +:+ post) = pre) /\
  (forall host : string, no_colon host = true -> extractDomain host = host) /\
  (forall host : string,
      no_colon host = true \/
      exists pre post : string, host = pre +:+ ":" +:+ post /\ no_colon post = true) /\
  extractDomain "service.example.com:8080" = "service.example.com" /\
  extractDomain "service.example.com" = "service.example.com".
Proof.
  split; [|split; [|split; [exact last_colon_split|split; reflexivity]]].
  - intros pre post Hpost. unfold extractDomain, slice_to.
    rewrite (LastIndex_last_colon _ _ Hpost).
    destruct (Z.eqb_spec (Z.of_nat (String.length pre)) (-1)); [lia|].
    cbn [negb]. rewrite Nat2Z.id. apply substring_append_l.
  - intros host Hhost. unfold extractDomain.
    rewrite (LastIndex_no_colon _ Hhost). reflexivity.
Qed.

Lemma extractDomain_last_colon_witness :
  no_colon "8080" = true /\ no_colon "svc.local" = true /\
  extractDomain ("svc.local" +:+ ":" +:+ "8080") = "svc.local" /\
  extractDomain "svc.local" = "svc.local".
Proof.
  split; [reflexivity|]. split; [reflexivity|]. split.
  - apply (proj1 extractDomain_last_colon "svc.local" "8080"). reflexivity.
  - apply (proj1 (proj2 extractDomain_last_colon) "svc.local"). reflexivity.
Defined.

(** ** The reconciliation engine *)

Section Properties.

Context {W : Type}.
Variable ParseIP : string -> option (list Z).
Variable NewOPNsenseProvider :
  string -> string -> string -> string -> bool -> bool -> DNSService W + error.

Local Abbreviation handleDomain := (@handleDomain W ParseIP).
Local Abbreviation reaches_query := (@reaches_query W ParseIP).
Local Abbreviation reconcile_times := (@reconcile_times W ParseIP).
Local Abbreviation provisionProviders := (@provisionProviders W NewOPNsenseProvider).
Local Abbreviation Provision := (@Provision W ParseIP NewOPNsenseProvider).

Implicit Types (a : App W) (h : Handler) (p : DNSService W) (s : State W).

Lemma eqb_empty_false (ip : string) : ip <> "" -> String.eqb ip "" = false.
Proof. intros H. apply String.eqb_neq. exact H. Qed.

(** [handleDomain] from the query on, as one equation. *)
Lemma handleDomain_query a h p (domain : string) s :
  reaches_query a h p ->
  handleDomain a h domain s =
  (let ip := desiredIP a h in
   run _ := hlog InfoLevel "handling domain"
              [zString "domain" domain; zString "ip" ip; zString "provider" (Provider h)] in
   run (existing, err) := invoke (CallFind domain) (FindRecord p domain) in
   match err with
   | Some err => ret (Some (wrapError "failed to find existing record: " err))
   | None =>
       match existing with
       | Some existing =>
           if String.eqb (IP existing) ip && Enabled existing then
             run _ := hlog InfoLevel "DNS record already exists and is correct"
                        [zString "domain" domain] in
             ret None
           else
             run _ := hlog InfoLevel "updating existing DNS record"
                        [zString "domain" domain] in
             invoke (CallUpdate domain ip) (UpdateRecord p domain ip)
       | None =>
           run _ := hlog InfoLevel "creating new DNS record" [zString "domain" domain] in
           invoke (CallCreate domain ip) (CreateRecord p domain ip)
       end
   end)%go s.
Proof.
  intros (Hp & Hne & [parsed Hok]). unfold handleDomain. rewrite Hp.
  cbv zeta. rewrite (eqb_empty_false _ Hne), Hok. reflexivity.
Qed.

Ltac run_go :=
  unfold bind, ret, hlog, log, invoke; cbn [backend calls logs fst snd].

(** Whatever happens, a reconciliation invokes the provider at most
    twice, a query and then a write, on the domain and with the desired
    IP. *)
Lemma handleDomain_calls a h (domain : string) s :
  exists new : list Call,
    calls (snd (handleDomain a h domain s)) = (calls s ++ new)%list /\
    (new = [] \/ new = [CallFind domain] \/
     new = [CallFind domain; CallCreate domain (desiredIP a h)] \/
     new = [CallFind domain; CallUpdate domain (desiredIP a h)]).
Proof.
  unfold handleDomain.
  destruct (clients a !! Provider h) as [p|];
    [|exists []; rewrite app_nil_r; auto].
  cbv zeta.
  destruct (String.eqb (desiredIP a h) ""); [exists []; rewrite app_nil_r; auto|].
  destruct (ParseIP (desiredIP a h)); [|exists []; rewrite app_nil_r; auto].
  run_go.
  destruct (FindRecord p domain (backend s)) as [[existing [err|]] w]; run_go.
  - exists [CallFind domain]. auto.
  - destruct existing as [r|]; run_go.
    + destruct (String.eqb (IP r) (desiredIP a h) && Enabled r); run_go.
      * exists [CallFind domain]. run_go. auto.
      * destruct (UpdateRecord p domain (desiredIP a h) w) as [e w'].
        exists [CallFind domain; CallUpdate domain (desiredIP a h)].
        run_go. rewrite <- app_assoc. auto.
    + destruct (CreateRecord p domain (desiredIP a h) w) as [e w'].
      exists [CallFind domain; CallCreate domain (desiredIP a h)].
      run_go. rewrite <- app_assoc. auto.
Qed.

(** C1. Once the provider is resolved and the desired IP validated, what
    [handleDomain] does is decided by the result of [FindRecord]: no
    record, and [CreateRecord] is invoked with the domain and the desired
    IP, its result being the result; a record with the desired IP and
    enabled, and nothing is written and the reconciliation succeeds; a
    record with another IP or disabled, and [UpdateRecord] is invoked
    with the domain and the desired IP. *)
Theorem handleDomain_three_way a h p (domain : string) s
        (existing : option DNSRecord) (w : W) :
  reaches_query a h p ->
  FindRecord p domain (backend s) = ((existing, None), w) ->
  let ip := desiredIP a h in
  let res := handleDomain a h domain s in
  (existing = None ->
     calls (snd res) = (calls s ++ [CallFind domain; CallCreate domain ip])%list /\
     (fst res, backend (snd res)) = CreateRecord p domain ip w) /\
  (forall r, existing = Some r -> IP r = ip -> Enabled r = true ->
     fst res = None /\
     calls (snd res) = (calls s ++ [CallFind domain])%list /\
     backend (snd res) = w) /\
  (forall r, existing = Some r -> IP r <> ip \/ Enabled r = false ->
     calls (snd res) = (calls s ++ [CallFind domain; CallUpdate domain ip])%list /\
     (fst res, backend (snd res)) = UpdateRecord p domain ip w).
Proof.
  intros Hq Hfind ip res. subst ip res.
  rewrite (handleDomain_query _ _ _ _ _ Hq).
  run_go. rewrite Hfind. run_go.
  split; [|split].
  - intros ->. run_go.
    destruct (CreateRecord p domain (desiredIP a h) w) as [e w'].
    run_go. rewrite <- app_assoc. auto.
  - intros r -> Hip Hen. rewrite Hip, Hen, String.eqb_refl.
    cbn [andb]. run_go. auto.
  - intros r -> Hbad.
    assert (String.eqb (IP r) (desiredIP a h) && Enabled r = false) as ->.
    { destruct Hbad as [Hip | Hen].
      - apply String.eqb_neq in Hip. rewrite Hip. reflexivity.
      - rewrite Hen. apply andb_false_r. }
    run_go. destruct (UpdateRecord p domain (desiredIP a h) w) as [e w'].
    run_go. rewrite <- app_assoc. auto.
Qed.


(** C4. With the provider resolved, a desired IP that [net.ParseIP]
    rejects makes the reconciliation fail with [InvalidIP], the state
    being as it was: neither [FindRecord] nor [CreateRecord] nor
    [UpdateRecord] was invoked. *)
Theorem handleDomain_invalid_ip a h p (domain : string) s :
  clients a !! Provider h = Some p ->
  desiredIP a h <> "" ->
  ParseIP (desiredIP a h) = None ->
  handleDomain a h domain s = (Some (InvalidIP (desiredIP a h)), s) /\
  calls (snd (handleDomain a h domain s)) = calls s /\
  backend (snd (handleDomain a h domain s)) = backend s.
Proof.
  intros Hp Hne Hbad.
  assert (handleDomain a h domain s = (Some (InvalidIP (desiredIP a h)), s)) as E.
  { unfold handleDomain. rewrite Hp. cbv zeta.
    rewrite (eqb_empty_false _ Hne), Hbad. reflexivity. }
  rewrite E. auto.
Qed.

(** C5. When [FindRecord] fails, the reconciliation returns that error,
    wrapped, and stops: the query is the only provider operation
    invoked, no write is counted, and the world is as the query left
    it. *)
Theorem handleDomain_query_error a h p (domain : string) s
        (existing : option DNSRecord) (err : error) (w : W) :
  reaches_query a h p ->
  FindRecord p domain (backend s) = ((existing, Some err), w) ->
  let res := handleDomain a h domain s in
  fst res = Some (wrapError "failed to find existing record: " err) /\
  (fst res ≫= Unwrap) = Some err /\
  calls (snd res) = (calls s ++ [CallFind domain])%list /\
  writes (calls (snd res)) = writes (calls s) /\
  backend (snd res) = w.
Proof.
  intros Hq Hfind res. subst res.
  rewrite (handleDomain_query _ _ _ _ _ Hq).
  run_go. rewrite Hfind. run_go.
  repeat split; try reflexivity.
  unfold writes. rewrite List.filter_app, length_app. cbn. lia.
Qed.

(** ** Idempotence *)

Lemma handleDomain_success_reaches a h p (domain : string) s :
  clients a !! Provider h = Some p ->
  fst (handleDomain a h domain s) = None ->
  reaches_query a h p.
Proof.
  intros Hp. unfold handleDomain. rewrite Hp. cbv zeta.
  destruct (String.eqb_spec (desiredIP a h) "") as [E|E]; [discriminate|].
  destruct (ParseIP (desiredIP a h)) as [parsed|] eqn:Hparse; [|discriminate].
  intros _. repeat split; [exact Hp|exact E|]. rewrite Hparse. eauto.
Qed.

Lemma writes_snoc (l : list Call) (c : Call) :
  writes (l ++ [c]) = (writes l + if is_write c then 1 else 0)%nat.
Proof.
  unfold writes. rewrite List.filter_app, length_app. cbn.
  destruct (is_write c); reflexivity.
Qed.

(** A reconciliation that finds the record correct queries and leaves
    the world alone. *)
Lemma handleDomain_correct a h p (domain : string) s :
  reaches_query a h p ->
  (forall d w, snd (FindRecord p d w) = w) ->
  already_correct p domain (desiredIP a h) (backend s) = true ->
  fst (handleDomain a h domain s) = None /\
  calls (snd (handleDomain a h domain s)) = (calls s ++ [CallFind domain])%list /\
  backend (snd (handleDomain a h domain s)) = backend s.
Proof.
  intros Hq Hreads Hcorrect.
  rewrite (handleDomain_query _ _ _ _ _ Hq). run_go.
  unfold already_correct in Hcorrect.
  pose proof (Hreads domain (backend s)) as Hw.
  destruct (FindRecord p domain (backend s)) as [[existing err] w].
  cbn [fst snd] in Hcorrect, Hw. subst w.
  destruct existing as [r|]; [|discriminate].
  destruct err as [err|]; [discriminate|].
  rewrite Hcorrect. run_go. auto.
Qed.

(** A reconciliation that succeeds leaves the record correct, and has
    written once unless the record was correct already. *)
Lemma handleDomain_settles a h p (domain : string) s :
  clients a !! Provider h = Some p ->
  honours_contract p ->
  fst (handleDomain a h domain s) = None ->
  already_correct p domain (desiredIP a h)
                  (backend (snd (handleDomain a h domain s))) = true /\
  writes (calls (snd (handleDomain a h domain s))) =
    (writes (calls s) +
     if already_correct p domain (desiredIP a h) (backend s) then 0 else 1)%nat.
Proof.
  intros Hp Hc Hok.
  pose proof (handleDomain_success_reaches _ _ _ _ _ Hp Hok) as Hq.
  destruct (already_correct p domain (desiredIP a h) (backend s)) eqn:Hcorrect.
  - destruct (handleDomain_correct _ _ _ domain s Hq (find_reads _ Hc) Hcorrect)
      as (_ & Hcalls & Hback).
    rewrite Hback, Hcalls, writes_snoc. cbn [is_write]. split; [exact Hcorrect|lia].
  - revert Hok. rewrite (handleDomain_query _ _ _ _ _ Hq). run_go.
    unfold already_correct in *.
    pose proof (find_reads _ Hc domain (backend s)) as Hw.
    destruct (FindRecord p domain (backend s)) as [[existing err] w].
    cbn [fst snd] in Hcorrect, Hw. subst w. run_go.
    destruct err as [err|]; [discriminate|].
    destruct existing as [r|].
    + rewrite Hcorrect. run_go.
      destruct (UpdateRecord p domain (desiredIP a h) (backend s)) as [e w'] eqn:Hupd.
      run_go. intros ->.
      destruct (update_binds _ Hc _ _ _ _ Hupd) as (r' & Hfind & Hip & Hen).
      rewrite Hfind. cbn [fst]. rewrite Hip, Hen, String.eqb_refl.
      split; [reflexivity|].
      rewrite !writes_snoc. cbn [is_write]. lia.
    + run_go.
      destruct (CreateRecord p domain (desiredIP a h) (backend s)) as [e w'] eqn:Hcre.
      run_go. intros ->.
      destruct (create_binds _ Hc _ _ _ _ Hcre) as (r' & Hfind & Hip & Hen).
      rewrite Hfind. cbn [fst]. rewrite Hip, Hen, String.eqb_refl.
      split; [reflexivity|].
      rewrite !writes_snoc. cbn [is_write]. lia.
Qed.

Lemma reconcile_times_stable a h p (domain : string) (n : nat) s :
  reaches_query a h p ->
  (forall d w, snd (FindRecord p d w) = w) ->
  already_correct p domain (desiredIP a h) (backend s) = true ->
  backend (reconcile_times a h domain n s) = backend s /\
  writes (calls (reconcile_times a h domain n s)) = writes (calls s).
Proof.
  intros Hq Hreads. revert s. induction n as [|n IH]; intros s Hcorrect.
  - split; reflexivity.
  - cbn [reconcile_times].
    destruct (handleDomain_correct _ _ _ domain s Hq Hreads Hcorrect)
      as (_ & Hcalls & Hback).
    destruct (IH (snd (handleDomain a h domain s))) as [IHb IHw].
    { rewrite Hback. exact Hcorrect. }
    rewrite IHb, IHw, Hback, Hcalls, writes_snoc. cbn [is_write]. split; [reflexivity|lia].
Qed.

(** C2, amended. Against a provider that honours the contract, a
    reconciliation that succeeds writes exactly once when the record was
    absent, bound to another IP or disabled, and not at all when the
    record was correct already; a second reconciliation of the same
    domain then succeeds without a write and leaves the world as it is,
    and so does every further one. *)
Theorem reconcile_twice a h p (domain : string) s :
  clients a !! Provider h = Some p ->
  honours_contract p ->
  fst (handleDomain a h domain s) = None ->
  let ip := desiredIP a h in
  let s1 := snd (handleDomain a h domain s) in
  let s2 := snd (handleDomain a h domain s1) in
  writes (calls s1) =
    (writes (calls s) + if already_correct p domain ip (backend s) then 0 else 1)%nat /\
  fst (handleDomain a h domain s1) = None /\
  writes (calls s2) = writes (calls s1) /\
  backend s2 = backend s1 /\
  (forall n : nat,
      backend (reconcile_times a h domain n s1) = backend s1 /\
      writes (calls (reconcile_times a h domain n s1)) = writes (calls s1)).
Proof.
  intros Hp Hc Hok ip s1 s2. subst ip s1 s2.
  pose proof (handleDomain_success_reaches _ _ _ _ _ Hp Hok) as Hq.
  destruct (handleDomain_settles _ _ _ domain s Hp Hc Hok) as [Hcorrect Hwrites].
  destruct (handleDomain_correct _ _ _ domain _ Hq (find_reads _ Hc) Hcorrect)
    as (Hok2 & Hcalls2 & Hback2).
  split; [exact Hwrites|]. split; [exact Hok2|]. split.
  - rewrite Hcalls2, writes_snoc. cbn [is_write]. lia.
  - split; [exact Hback2|].
    intros n. exact (reconcile_times_stable _ _ _ domain n _ Hq (find_reads _ Hc) Hcorrect).
Qed.

(** ** The request adapter *)

Context {Request ResponseWriter : Type}.
Variable Host : Request -> string.

(** C7. [ServeHTTP] ends with the call of the next handler on the
    response writer and the request it was given, whatever the
    reconciliation returned, and its result is the next handler's
    result.  The next handler runs in the state the reconciliation left,
    with one more log line, the error, when the reconciliation failed. *)
Theorem ServeHTTP_forwards a h (w : ResponseWriter) (r : Request)
        (next : ResponseWriter -> Request -> M W (option error)) s :
  let domain := extractDomain (Host r) in
  let rec := handleDomain a h domain s in
  exists s' : State W,
    ServeHTTP ParseIP Host a h w r next s = next w r s' /\
    backend s' = backend (snd rec) /\
    calls s' = calls (snd rec) /\
    logs s' =
      (logs (snd rec) ++
       match fst rec with
       | Some err =>
           [mkLogEntry "http.handlers.local_dns" ErrorLevel "failed to handle domain"
                       [zString "domain" domain; zError err]]
       | None => []
       end)%list.
Proof.
  intros domain rec. subst domain rec. unfold ServeHTTP. cbv zeta.
  unfold bind at 1 2.
  destruct (handleDomain a h (extractDomain (Host r)) s) as [[err|] s1].
  - run_go. eexists. split; [reflexivity|]. cbn [backend calls logs]. auto.
  - run_go. exists s1. rewrite app_nil_r. auto.
Qed.

(** ** Provisioning *)

Lemma createProvider_Debug (a a' : App W) (config : ProviderConfig) :
  Debug a = Debug a' ->
  createProvider NewOPNsenseProvider a config = createProvider NewOPNsenseProvider a' config.
Proof. intros E. unfold createProvider. rewrite E. reflexivity. Qed.

Lemma provisionProviders_config a (order : list (string * ProviderConfig))
      (lg : list LogEntry) :
  let a' := snd (fst (provisionProviders a order lg)) in
  Providers a' = Providers a /\ CaddyIP a' = CaddyIP a /\ Debug a' = Debug a.
Proof.
  revert a lg. induction order as [|[name config] rest IH]; intros a lg.
  - cbn. auto.
  - cbn [provisionProviders].
    destruct (createProvider NewOPNsenseProvider a config) as [client|err]; [|cbn; auto].
    exact (IH (set_clients (<[name:=client]> (clients a)) a) _).
Qed.

(** The loop stops at the first construction that fails, with an error
    that names the provider. *)
Lemma provisionProviders_stops a (pre post : list (string * ProviderConfig))
      (name : string) (config : ProviderConfig) (err : error) (lg : list LogEntry) :
  Forall (fun nc => exists c, createProvider NewOPNsenseProvider a nc.2 = inl c) pre ->
  createProvider NewOPNsenseProvider a config = inr err ->
  fst (fst (provisionProviders a (pre ++ (name, config) :: post) lg)) =
    Some (wrapError ("failed to create provider " +:+ name +:+ ": ") err).
Proof.
  revert a lg. induction pre as [|[n0 c0] pre IH]; intros a lg Hpre Hfail.
  - cbn [app provisionProviders]. rewrite Hfail. reflexivity.
  - apply Forall_cons in Hpre as [[c Hc] Hpre]. cbn [snd] in Hc.
    cbn [app provisionProviders]. rewrite Hc.
    apply IH.
    + eapply Forall_impl; [exact Hpre|]. intros nc [c' Hc']. exists c'.
      rewrite <- Hc'. apply createProvider_Debug. reflexivity.
    + rewrite <- Hfail. apply createProvider_Debug. reflexivity.
Qed.

(** An entry whose construction fails makes the loop fail, naming an
    entry whose construction fails. *)
Lemma provisionProviders_fails a (order : list (string * ProviderConfig))
      (lg : list LogEntry) :
  (exists name config err,
      (name, config) ∈ order /\ createProvider NewOPNsenseProvider a config = inr err) ->
  exists name config err,
    (name, config) ∈ order /\ createProvider NewOPNsenseProvider a config = inr err /\
    fst (fst (provisionProviders a order lg)) =
      Some (wrapError ("failed to create provider " +:+ name +:+ ": ") err).
Proof.
  revert a lg. induction order as [|[n0 c0] rest IH];
    intros a lg (name & config & err & Hin & Hfail).
  - apply elem_of_nil in Hin. contradiction.
  - cbn [provisionProviders].
    destruct (createProvider NewOPNsenseProvider a c0) as [client|err0] eqn:Hc0.
    + apply elem_of_cons in Hin as [Heq | Hin]; [congruence|].
      destruct (IH (set_clients (<[n0:=client]> (clients a)) a)
                   (lg ++ [mkLogEntry "local_dns" InfoLevel "initialized DNS provider"
                             (if Debug (set_clients (<[n0:=client]> (clients a)) a)
                              then [zString "name" n0; zString "type" (Type_ c0)] ++
                                   [zString "hostname" (Hostname c0);
                                    zString "dns_service" (DNSService_ c0);
                                    zBool "insecure" (Insecure c0)]
                              else [zString "name" n0; zString "type" (Type_ c0)])])%list)
        as (name' & config' & err' & Hin' & Hfail' & Hres).
      { exists name, config, err. split; [exact Hin|].
        rewrite <- Hfail. apply createProvider_Debug. reflexivity. }
      exists name', config', err'. split; [apply elem_of_cons; auto|].
      split; [|exact Hres].
      rewrite <- Hfail'. apply createProvider_Debug. reflexivity.
    + exists n0, c0, err0. split; [apply elem_of_cons; auto|]. auto.
Qed.

(** A loop that ends without error has constructed every entry, and
    stored each under its name. *)
Lemma provisionProviders_all a (order : list (string * ProviderConfig))
      (lg : list LogEntry) :
  fst (fst (provisionProviders a order lg)) = None ->
  let a' := snd (fst (provisionProviders a order lg)) in
  (forall k : string, k ∉ order.*1 -> clients a' !! k = clients a !! k) /\
  (NoDup order.*1 ->
   forall name config, (name, config) ∈ order ->
     exists c, createProvider NewOPNsenseProvider a config = inl c /\ clients a' !! name = Some c).
Proof.
  revert a lg. induction order as [|[n0 c0] rest IH]; intros a lg.
  - intros _. cbn. split; [auto|]. intros _ name config Hin.
    apply elem_of_nil in Hin. contradiction.
  - cbn [provisionProviders].
    destruct (createProvider NewOPNsenseProvider a c0) as [client|err0] eqn:Hc0; [|discriminate].
    intros Hok. destruct (IH _ _ Hok) as [IHout IHin]. cbv zeta. split.
    + intros k Hk. rewrite fmap_cons in Hk. cbn [fst] in Hk.
      apply not_elem_of_cons in Hk as [Hne Hk].
      rewrite (IHout k Hk). cbn [clients set_clients].
      apply lookup_insert_ne. congruence.
    + rewrite fmap_cons. cbn [fst]. intros [Hfresh Hnodup]%NoDup_cons name config Hin.
      apply elem_of_cons in Hin as [Heq | Hin].
      * injection Heq as -> ->. exists client. split; [exact Hc0|].
        rewrite (IHout n0 Hfresh). cbn [clients set_clients].
        apply lookup_insert_eq.
      * destruct (IHin Hnodup name config Hin) as (c & Hc & Hlook).
        exists c. split; [|exact Hlook].
        rewrite <- Hc. apply createProvider_Debug. reflexivity.
Qed.

Lemma caddy_ip_check_passes a :
  CaddyIP a = "" \/ is_Some (ParseIP (CaddyIP a)) ->
  forall order lg,
    Provision order a lg = provisionProviders (set_clients ∅ a) order lg.
Proof.
  intros Hip order lg. unfold Provision. cbv zeta.
  cbn [CaddyIP set_clients].
  destruct Hip as [-> | [parsed ->]]; [reflexivity|].
  destruct (negb (String.eqb (CaddyIP a) "")); reflexivity.
Qed.

Lemma caddy_ip_check_fails a :
  CaddyIP a <> "" -> ParseIP (CaddyIP a) = None ->
  forall order lg,
    Provision order a lg =
    (Some (errorString ("invalid caddy_ip address: " +:+ CaddyIP a)), set_clients ∅ a, lg).
Proof.
  intros Hne Hbad order lg. unfold Provision. cbv zeta.
  cbn [CaddyIP set_clients].
  rewrite (eqb_empty_false _ Hne), Hbad. reflexivity.
Qed.

Lemma Provision_fails_or_loops a (order : list (string * ProviderConfig))
      (lg : list LogEntry) :
  (exists e, fst (fst (Provision order a lg)) = Some e) \/
  Provision order a lg = provisionProviders (set_clients ∅ a) order lg.
Proof.
  destruct (String.eqb_spec (CaddyIP a) "") as [E|E].
  - right. apply caddy_ip_check_passes. auto.
  - destruct (ParseIP (CaddyIP a)) as [ip|] eqn:Hparse.
    + right. apply caddy_ip_check_passes. right. rewrite Hparse. eauto.
    + left. rewrite (caddy_ip_check_fails _ E Hparse). eauto.
Qed.

Lemma order_lookup a (order : list (string * ProviderConfig))
      (name : string) (config : ProviderConfig) :
  order ≡ₚ map_to_list (Providers a) ->
  (name, config) ∈ order <-> Providers a !! name = Some config.
Proof. intros Hperm. rewrite Hperm. apply elem_of_map_to_list. Qed.

Lemma order_NoDup a (order : list (string * ProviderConfig)) :
  order ≡ₚ map_to_list (Providers a) -> NoDup order.*1.
Proof. intros Hperm. rewrite Hperm. apply NoDup_fst_map_to_list. Qed.

(** A configured provider whose construction fails makes provisioning
    fail, in every order. *)
Lemma Provision_fails a (order : list (string * ProviderConfig))
      (lg : list LogEntry) (name : string) (config : ProviderConfig) (err : error) :
  order ≡ₚ map_to_list (Providers a) ->
  Providers a !! name = Some config ->
  createProvider NewOPNsenseProvider a config = inr err ->
  exists e, fst (fst (Provision order a lg)) = Some e /\
    (CaddyIP a = "" \/ is_Some (ParseIP (CaddyIP a)) ->
     exists name' config' err',
       Providers a !! name' = Some config' /\
       createProvider NewOPNsenseProvider a config' = inr err' /\
       e = wrapError ("failed to create provider " +:+ name' +:+ ": ") err').
Proof.
  intros Hperm Hlook Hfail.
  destruct (provisionProviders_fails (set_clients ∅ a) order lg)
    as (name' & config' & err' & Hin' & Hfail' & Hres).
  { exists name, config, err. split; [|exact Hfail].
    apply (order_lookup _ _ _ _ Hperm). exact Hlook. }
  destruct (Provision_fails_or_loops a order lg) as [[e He] | Hloop].
  - exists e. split; [exact He|]. intros Hip.
    rewrite (caddy_ip_check_passes _ Hip), Hres in He.
    injection He as <-. exists name', config', err'.
    split; [apply (order_lookup _ _ _ _ Hperm); exact Hin'|]. auto.
  - rewrite Hloop, Hres. eexists. split; [reflexivity|]. intros _.
    exists name', config', err'.
    split; [apply (order_lookup _ _ _ _ Hperm); exact Hin'|]. auto.
Qed.

(** C6. Whatever the order in which the providers are constructed: the
    construction that fails ends provisioning with an error that names
    its provider; a configuration with a provider whose construction
    fails is never provisioned, and once the default IP has passed its
    check the error names a provider whose construction fails;
    provisioning that succeeds has constructed every configured
    provider; and a default IP that is not empty and not a valid IP makes
    provisioning fail. *)
Theorem Provision_fail_fast a (order : list (string * ProviderConfig))
        (lg : list LogEntry) :
  order ≡ₚ map_to_list (Providers a) ->
  (forall pre name config post err,
      order = (pre ++ (name, config) :: post)%list ->
      CaddyIP a = "" \/ is_Some (ParseIP (CaddyIP a)) ->
      Forall (fun nc => exists c, createProvider NewOPNsenseProvider a nc.2 = inl c) pre ->
      createProvider NewOPNsenseProvider a config = inr err ->
      fst (fst (Provision order a lg)) =
        Some (wrapError ("failed to create provider " +:+ name +:+ ": ") err)) /\
  (forall name config err,
      Providers a !! name = Some config ->
      createProvider NewOPNsenseProvider a config = inr err ->
      exists e, fst (fst (Provision order a lg)) = Some e /\
        (CaddyIP a = "" \/ is_Some (ParseIP (CaddyIP a)) ->
         exists name' config' err',
           Providers a !! name' = Some config' /\
           createProvider NewOPNsenseProvider a config' = inr err' /\
           e = wrapError ("failed to create provider " +:+ name' +:+ ": ") err')) /\
  (fst (fst (Provision order a lg)) = None ->
   forall name config,
     Providers a !! name = Some config ->
     exists c, createProvider NewOPNsenseProvider a config = inl c /\
               clients (snd (fst (Provision order a lg))) !! name = Some c) /\
  (CaddyIP a <> "" -> ParseIP (CaddyIP a) = None ->
   fst (fst (Provision order a lg)) =
     Some (errorString ("invalid caddy_ip address: " +:+ CaddyIP a))).
Proof.
  intros Hperm. split; [|split; [|split]].
  - intros pre name config post err -> Hip Hpre Hfail.
    rewrite (caddy_ip_check_passes _ Hip).
    apply provisionProviders_stops; [|exact Hfail].
    eapply Forall_impl; [exact Hpre|]. intros nc [c Hc]. exists c. exact Hc.
  - intros name config err Hlook Hfail.
    exact (Provision_fails a order lg name config err Hperm Hlook Hfail).
  - intros Hok name config Hlook.
    destruct (Provision_fails_or_loops a order lg) as [[e He] | Hloop];
      [congruence|].
    rewrite Hloop in Hok |- *.
    destruct (provisionProviders_all _ _ _ Hok) as [_ Hall].
    apply (Hall (order_NoDup _ _ Hperm)).
    apply (order_lookup _ _ _ _ Hperm). exact Hlook.
  - intros Hne Hbad. rewrite (caddy_ip_check_fails _ Hne Hbad). reflexivity.
Qed.

(** C10. [createProvider] calls the constructor for the type tag
    [opnsense] and for no other: for any other tag its result is the
    error [unsupported provider type], whatever the constructor is, no
    instance is returned, and a configuration that holds such a provider
    is never provisioned. *)
Theorem createProvider_closed a (config : ProviderConfig) :
  (Type_ config = "opnsense" ->
   createProvider NewOPNsenseProvider a config =
     NewOPNsenseProvider (Hostname config) (APIKey config) (APISecret config)
                         (DNSService_ config) (Insecure config) (Debug a)) /\
  (Type_ config <> "opnsense" ->
   (forall New', createProvider New' a config =
      inr (errorString ("unsupported provider type: " +:+ Type_ config))) /\
   (forall c, createProvider NewOPNsenseProvider a config <> inl c) /\
   (forall order name lg,
       order ≡ₚ map_to_list (Providers a) ->
       Providers a !! name = Some config ->
       is_Some (fst (fst (Provision order a lg))))).
Proof.
  split.
  - intros Htag. unfold createProvider.
    destruct (decide (Type_ config = "opnsense")); [reflexivity|contradiction].
  - intros Htag.
    assert (forall New', createProvider New' a config =
              inr (errorString ("unsupported provider type: " +:+ Type_ config))) as Hunsup.
    { intros New'. unfold createProvider.
      destruct (decide (Type_ config = "opnsense")); [contradiction|reflexivity]. }
    split; [exact Hunsup|]. split.
    + intros c. rewrite Hunsup. discriminate.
    + intros order name lg Hperm Hlook.
      destruct (Provision_fails a order lg name config _ Hperm Hlook (Hunsup _))
        as (e & He & _).
      rewrite He. eauto.
Qed.

(** ** The debug flag *)





End Properties.

(** ** The module on the sample configurations *)

Lemma memProvider_contract : honours_contract memProvider.
Proof.
  split.
  - intros d w. reflexivity.
  - intros d ip w w' H. injection H as <-.
    exists (mkDNSRecord d ip true). cbn. rewrite lookup_insert_eq. auto.
  - intros d ip w w' H. injection H as <-.
    exists (mkDNSRecord d ip true). cbn. rewrite lookup_insert_eq. auto.
Qed.

Lemma sample_reaches_query :
  reaches_query sampleParseIP sampleApp sampleHandler memProvider.
Proof.
  split; [reflexivity|]. split; [discriminate|]. eexists. reflexivity.
Qed.

Lemma handleDomain_three_way_witness :
  reaches_query sampleParseIP sampleApp sampleHandler memProvider /\
  FindRecord memProvider "svc.local" (backend emptyState) = ((None, None), ∅) /\
  calls (snd (handleDomain sampleParseIP sampleApp sampleHandler "svc.local" emptyState)) =
    [CallFind "svc.local"; CallCreate "svc.local" "192.168.1.50"].
Proof.
  split; [exact sample_reaches_query|]. split; [reflexivity|].
  exact (proj1 (proj1 (handleDomain_three_way sampleParseIP sampleApp sampleHandler
                         memProvider "svc.local" emptyState None ∅
                         sample_reaches_query eq_refl) eq_refl)).
Defined.

(** C2 as stated fails: with the record of the domain correct already,
    the first of two reconciliations succeeds and writes nothing. *)
Lemma exactly_one_write_counterexample :
  ~ (forall (a : App (gmap string DNSRecord)) (h : Handler)
            (p : DNSService (gmap string DNSRecord)) (domain : string)
            (s : State (gmap string DNSRecord)),
        clients a !! Provider h = Some p ->
        honours_contract p ->
        fst (handleDomain sampleParseIP a h domain s) = None ->
        let s1 := snd (handleDomain sampleParseIP a h domain s) in
        let s2 := snd (handleDomain sampleParseIP a h domain s1) in
        writes (calls s1) = S (writes (calls s)) /\
        writes (calls s2) = writes (calls s1)).
Proof.
  intros H.
  destruct (H sampleApp sampleHandler memProvider "svc.local" correctState
              eq_refl memProvider_contract eq_refl) as [H1 _].
  vm_compute in H1. discriminate.
Qed.

Lemma reconcile_twice_witness :
  clients sampleApp !! Provider sampleHandler = Some memProvider /\
  honours_contract memProvider /\
  fst (handleDomain sampleParseIP sampleApp sampleHandler "svc.local" staleState) = None /\
  writes (calls (snd (handleDomain sampleParseIP sampleApp sampleHandler "svc.local"
                                   staleState))) = 1%nat.
Proof.
  split; [reflexivity|]. split; [exact memProvider_contract|]. split; [reflexivity|].
  exact (proj1 (reconcile_twice sampleParseIP sampleApp sampleHandler memProvider
                  "svc.local" staleState eq_refl memProvider_contract eq_refl)).
Defined.


Lemma handleDomain_invalid_ip_witness :
  clients sampleApp !! Provider malformedHandler = Some memProvider /\
  desiredIP sampleApp malformedHandler <> "" /\
  sampleParseIP (desiredIP sampleApp malformedHandler) = None /\
  handleDomain sampleParseIP sampleApp malformedHandler "svc.local" emptyState =
    (Some (InvalidIP "999.1.1.1"), emptyState).
Proof.
  assert (desiredIP sampleApp malformedHandler <> "") as Hne by discriminate.
  split; [reflexivity|]. split; [exact Hne|]. split; [reflexivity|].
  exact (proj1 (handleDomain_invalid_ip sampleParseIP sampleApp malformedHandler memProvider
                  "svc.local" emptyState eq_refl Hne eq_refl)).
Defined.

Lemma down_reaches_query :
  reaches_query sampleParseIP downApp sampleHandler downProvider.
Proof.
  split; [reflexivity|]. split; [discriminate|]. eexists. reflexivity.
Qed.

Lemma handleDomain_query_error_witness :
  reaches_query sampleParseIP downApp sampleHandler downProvider /\
  FindRecord downProvider "svc.local" (backend staleState) =
    ((None, Some (errorString "connection refused")), backend staleState) /\
  fst (handleDomain sampleParseIP downApp sampleHandler "svc.local" staleState) =
    Some (wrapError "failed to find existing record: " (errorString "connection refused")).
Proof.
  split; [exact down_reaches_query|]. split; [reflexivity|].
  exact (proj1 (handleDomain_query_error sampleParseIP downApp sampleHandler downProvider
                  "svc.local" staleState None (errorString "connection refused")
                  (backend staleState) down_reaches_query eq_refl)).
Defined.

Lemma Provision_fail_fast_witness :
  map_to_list (Providers mixedApp) ≡ₚ map_to_list (Providers mixedApp) /\
  Providers mixedApp !! "pi" = Some piholeConfig /\
  createProvider sampleNewOPNsenseProvider mixedApp piholeConfig =
    inr (errorString "unsupported provider type: pihole") /\
  (exists e, fst (fst (Provision sampleParseIP sampleNewOPNsenseProvider
                                 (map_to_list (Providers mixedApp)) mixedApp [])) = Some e) /\
  CaddyIP malformedIPApp <> "" /\
  sampleParseIP (CaddyIP malformedIPApp) = None /\
  fst (fst (Provision sampleParseIP sampleNewOPNsenseProvider
                      (map_to_list (Providers malformedIPApp)) malformedIPApp [])) =
    Some (errorString "invalid caddy_ip address: 999.1.1.1").
Proof.
  assert (CaddyIP malformedIPApp <> "") as Hne by discriminate.
  split; [reflexivity|]. split; [reflexivity|]. split; [reflexivity|]. split.
  - destruct (proj1 (proj2 (Provision_fail_fast sampleParseIP sampleNewOPNsenseProvider
                              mixedApp (map_to_list (Providers mixedApp)) []
                              (reflexivity _)))
                    "pi" piholeConfig _ eq_refl eq_refl) as (e & He & _).
    exists e. exact He.
  - split; [exact Hne|]. split; [reflexivity|].
    exact (proj2 (proj2 (proj2 (Provision_fail_fast sampleParseIP sampleNewOPNsenseProvider
                                  malformedIPApp (map_to_list (Providers malformedIPApp)) []
                                  (reflexivity _))))
                 Hne eq_refl).
Defined.



Lemma createProvider_closed_witness :
  Type_ piholeConfig <> "opnsense" /\
  Type_ sampleConfig = "opnsense" /\
  createProvider sampleNewOPNsenseProvider sampleApp piholeConfig =
    inr (errorString "unsupported provider type: pihole") /\
  createProvider sampleNewOPNsenseProvider sampleApp sampleConfig = inl memProvider.
Proof.
  assert (Type_ piholeConfig <> "opnsense") as Hne by discriminate.
  split; [exact Hne|]. split; [reflexivity|]. split.
  - exact (proj1 (proj2 (createProvider_closed sampleParseIP sampleNewOPNsenseProvider
                           sampleApp piholeConfig) Hne)
                 sampleNewOPNsenseProvider).
  - exact (proj1 (createProvider_closed sampleParseIP sampleNewOPNsenseProvider
                    sampleApp sampleConfig) eq_refl).
Defined.

(** The scenarios of the spec. *)

Example scenario_create :
  let res := sampleServe sampleApp sampleHandler "svc.local:443" emptyState in
  fst res = None /\
  calls (snd res) = [CallFind "svc.local"; CallCreate "svc.local" "192.168.1.50"].
Proof. split; reflexivity. Qed.

Example scenario_correct :
  let res := sampleServe sampleApp sampleHandler "svc.local" correctState in
  fst res = None /\ calls (snd res) = [CallFind "svc.local"].
Proof. split; reflexivity. Qed.

Example scenario_update :
  let res := sampleServe sampleApp sampleHandler "svc.local" staleState in
  fst res = None /\
  calls (snd res) = [CallFind "svc.local"; CallUpdate "svc.local" "192.168.1.50"].
Proof. split; reflexivity. Qed.

Example scenario_ghost :
  handleDomain sampleParseIP sampleApp ghostHandler "svc.local" emptyState =
    (Some (ProviderNotFound "ghost"), emptyState) /\
  let res := sampleServe sampleApp ghostHandler "svc.local" emptyState in
  fst res = None /\ calls (snd res) = [] /\
  logs (snd res) =
    [mkLogEntry "http.handlers.local_dns" ErrorLevel "failed to handle domain"
                [zString "domain" "svc.local"; zError (ProviderNotFound "ghost")]].
Proof. repeat split; reflexivity. Qed.

Example scenario_malformed :
  let res := sampleServe sampleApp malformedHandler "svc.local" emptyState in
  fst res = None /\ calls (snd res) = [] /\
  logs (snd res) =
    [mkLogEntry "http.handlers.local_dns" ErrorLevel "failed to handle domain"
                [zString "domain" "svc.local"; zError (InvalidIP "999.1.1.1")]].
Proof. repeat split; reflexivity. Qed.

(** A handler that [Handler.Provision] accepted resolves its provider in
    every later reconciliation: the registry is not written after
    provisioning. *)
Lemma Handler_Provision_resolves {W} (ctxApp : option (App W)) (h : Handler) (a : App W) :
  Handler_Provision ctxApp h = inl a ->
  ctxApp = Some a /\ Provider h <> "" /\ is_Some (clients a !! Provider h).
Proof.
  unfold Handler_Provision. destruct ctxApp as [a0|]; [|discriminate].
  destruct (String.eqb_spec (Provider h) "") as [E|E]; [discriminate|].
  destruct (clients a0 !! Provider h) as [p|] eqn:Hp; [|discriminate].
  intros [= <-]. rewrite Hp. eauto.
Qed.

(** * Further properties of the module *)

(** ** Domain extraction *)

Lemma append_empty_r (s : string) : s +:+ "" = s.
Proof.
  induction s as [|a s IH]; [reflexivity|].
  change (String a (s +:+ "") = String a s). rewrite IH. reflexivity.
Qed.

Lemma length_append (s t : string) :
  String.length (s +:+ t) = (String.length s + String.length t)%nat.
Proof.
  induction s as [|a s IH]; [reflexivity|].
  change (S (String.length (s +:+ t)) = S (String.length s + String.length t)).
  rewrite IH. reflexivity.
Qed.

Lemma extractDomain_split (pre post : string) :
  no_colon post = true -> extractDomain (pre +:+ ":" +:+ post) = pre.
Proof.
  intros Hpost. unfold extractDomain, slice_to.
  rewrite (LastIndex_last_colon _ _ Hpost).
  destruct (Z.eqb_spec (Z.of_nat (String.length pre)) (-1)); [lia|].
  cbn [negb]. rewrite Nat2Z.id. apply substring_append_l.
Qed.

(** X1. The domain is always a prefix of the host; it is the whole host
    exactly when the host has no colon, and strictly shorter otherwise: a
    host with a colon but no port, such as a bracketed IPv6 literal, loses
    what follows its last colon. *)
Theorem extractDomain_prefix (host : string) :
  (exists rest : string, host = extractDomain host +:+ rest) /\
  (extractDomain host = host <-> no_colon host = true) /\
  (no_colon host = false ->
   (String.length (extractDomain host) < String.length host)%nat).
Proof.
  destruct (last_colon_split host) as [Hnone | (pre & post & -> & Hpost)].
  - assert (extractDomain host = host) as E.
    { unfold extractDomain. rewrite (LastIndex_no_colon _ Hnone). reflexivity. }
    rewrite E. split; [exists ""; symmetry; apply append_empty_r|].
    split; [tauto|]. rewrite Hnone. discriminate.
  - rewrite (extractDomain_split _ _ Hpost).
    assert (String.length pre < String.length (pre +:+ ":" +:+ post))%nat as Hlen.
    { rewrite !length_append. change (String.length ":") with 1%nat. lia. }
    split; [exists (":" +:+ post); reflexivity|]. split; [|intros _; exact Hlen].
    split.
    + intros E. rewrite <- E in Hlen. lia.
    + intros Hnone.
      pose proof (LastIndex_last_colon pre post Hpost) as Hidx.
      rewrite (LastIndex_no_colon _ Hnone) in Hidx. lia.
Qed.

Lemma extractDomain_prefix_witness :
  no_colon "[::1]" = false /\
  (String.length (extractDomain "[::1]") < String.length "[::1]")%nat.
Proof.
  split; [reflexivity|].
  exact (proj2 (proj2 (extractDomain_prefix "[::1]")) eq_refl).
Defined.

Section Further.

Context {W : Type}.
Variable ParseIP : string -> option (list Z).
Variable NewOPNsenseProvider :
  string -> string -> string -> string -> bool -> bool -> DNSService W + error.

Local Abbreviation handleDomain := (@handleDomain W ParseIP).
Local Abbreviation reaches_query := (@reaches_query W ParseIP).
Local Abbreviation provisionProviders := (@provisionProviders W NewOPNsenseProvider).
Local Abbreviation Provision := (@Provision W ParseIP NewOPNsenseProvider).

Implicit Types (a : App W) (h : Handler) (p : DNSService W) (s : State W).

Ltac run_go :=
  unfold bind, ret, hlog, log, invoke; cbn [backend calls logs fst snd].

(** ** Reconciliation *)

(** X2. Before it touches anything, [handleDomain] validates in a fixed
    order: a provider name that is not in the registry gives
    [ProviderNotFound], whatever the IPs are; with the provider resolved,
    either the query is reached, or the result is [NoIPConfigured] or
    [InvalidIP]; and in each of the three failures the state is as it
    was. *)
Theorem handleDomain_validation a h (domain : string) s :
  (clients a !! Provider h = None ->
   handleDomain a h domain s = (Some (ProviderNotFound (Provider h)), s)) /\
  (forall p, clients a !! Provider h = Some p ->
     reaches_query a h p \/
     (desiredIP a h = "" /\ handleDomain a h domain s = (Some NoIPConfigured, s)) \/
     (desiredIP a h <> "" /\ ParseIP (desiredIP a h) = None /\
      handleDomain a h domain s = (Some (InvalidIP (desiredIP a h)), s))).
Proof.
  split.
  - intros Hp. unfold handleDomain. rewrite Hp. reflexivity.
  - intros p Hp. unfold handleDomain, reaches_query. rewrite Hp. cbv zeta.
    destruct (String.eqb_spec (desiredIP a h) "") as [E|E]; [right; left; auto|].
    destruct (ParseIP (desiredIP a h)) as [parsed|] eqn:Hparse.
    + left. split; [reflexivity|]. split; [exact E|eauto].
    + right. right. auto.
Qed.

(** X3. A reconciliation invokes the provider at most twice and writes at
    most once; every operation it invokes is on the domain it was given;
    the first operation of a reconciliation is the query, so that a write
    only ever follows it; and the operations invoked before are kept. *)
Theorem handleDomain_call_discipline a h (domain : string) s :
  exists new : list Call,
    calls (snd (handleDomain a h domain s)) = (calls s ++ new)%list /\
    (length new <= 2)%nat /\
    (writes new <= 1)%nat /\
    Forall (fun c => call_domain c = domain) new /\
    (new = [] \/ head new = Some (CallFind domain)).
Proof.
  destruct (handleDomain_calls ParseIP a h domain s) as (new & Hnew & Hcases).
  exists new. split; [exact Hnew|].
  destruct Hcases as [-> | [-> | [-> | ->]]]; cbn;
    repeat split; try lia; auto; repeat constructor.
Qed.

(** X4. A reconciliation that returns no error has passed the three
    validations and has queried the provider: success is never reported
    without a [FindRecord] on the domain. *)
Theorem handleDomain_nil_queried a h (domain : string) s :
  fst (handleDomain a h domain s) = None ->
  exists p, reaches_query a h p /\
    exists ws, calls (snd (handleDomain a h domain s)) =
               (calls s ++ CallFind domain :: ws)%list.
Proof.
  intros Hok.
  destruct (clients a !! Provider h) as [p|] eqn:Hp.
  - pose proof (handleDomain_success_reaches ParseIP a h p domain s Hp Hok) as Hq.
    exists p. split; [exact Hq|].
    destruct (handleDomain_calls ParseIP a h domain s) as (new & Hnew & Hcases).
    rewrite Hnew.
    destruct Hcases as [-> | [-> | [-> | ->]]]; [|eauto..].
    exfalso. revert Hnew. rewrite (handleDomain_query ParseIP a h p domain s Hq).
    run_go.
    destruct (FindRecord p domain (backend s)) as [[existing [err|]] w]; run_go.
    + intros Hnew. apply (f_equal length) in Hnew.
      rewrite !length_app in Hnew. cbn in Hnew. lia.
    + destruct existing as [r|]; run_go.
      * destruct (String.eqb (IP r) (desiredIP a h) && Enabled r); run_go.
        -- intros Hnew. apply (f_equal length) in Hnew.
           rewrite !length_app in Hnew. cbn in Hnew. lia.
        -- destruct (UpdateRecord p domain (desiredIP a h) w) as [e w']. run_go.
           intros Hnew. apply (f_equal length) in Hnew.
           rewrite !length_app in Hnew. cbn in Hnew. lia.
      * destruct (CreateRecord p domain (desiredIP a h) w) as [e w']. run_go.
        intros Hnew. apply (f_equal length) in Hnew.
        rewrite !length_app in Hnew. cbn in Hnew. lia.
  - revert Hok. unfold handleDomain. rewrite Hp. discriminate.
Qed.

(** X5. The log of a reconciliation tells what it did: the lines it adds
    are written by the handler's logger at level Info, the old lines being
    kept; the line [handling domain] is there exactly when the provider
    was queried, the line [creating new DNS record] exactly when
    [CreateRecord] was invoked, and the line [updating existing DNS
    record] exactly when [UpdateRecord] was. *)
Theorem handleDomain_log_agrees a h (domain : string) s :
  exists (newc : list Call) (newl : list LogEntry),
    calls (snd (handleDomain a h domain s)) = (calls s ++ newc)%list /\
    logs (snd (handleDomain a h domain s)) = (logs s ++ newl)%list /\
    Forall (fun e => logger e = "http.handlers.local_dns" /\ level e = InfoLevel) newl /\
    logged "handling domain" newl = existsb is_find newc /\
    logged "creating new DNS record" newl = existsb is_create newc /\
    logged "updating existing DNS record" newl = existsb is_update newc.
Proof.
  unfold handleDomain.
  destruct (clients a !! Provider h) as [p|];
    [|exists [], []; run_go; rewrite !app_nil_r; repeat split; constructor].
  cbv zeta.
  destruct (String.eqb (desiredIP a h) "");
    [exists [], []; run_go; rewrite !app_nil_r; repeat split; constructor|].
  destruct (ParseIP (desiredIP a h));
    [|exists [], []; run_go; rewrite !app_nil_r; repeat split; constructor].
  run_go.
  destruct (FindRecord p domain (backend s)) as [[existing [err|]] w]; run_go.
  - eexists; eexists. split; [reflexivity|]. split; [reflexivity|].
    repeat split; repeat constructor.
  - destruct existing as [r|]; run_go.
    + destruct (String.eqb (IP r) (desiredIP a h) && Enabled r); run_go.
      * eexists; eexists. split; [reflexivity|].
        split; [rewrite <- app_assoc; reflexivity|].
        repeat split; repeat constructor.
      * destruct (UpdateRecord p domain (desiredIP a h) w) as [e w']. run_go.
        eexists; eexists. split; [rewrite <- app_assoc; reflexivity|].
        split; [rewrite <- app_assoc; reflexivity|].
        repeat split; repeat constructor.
    + destruct (CreateRecord p domain (desiredIP a h) w) as [e w']. run_go.
      eexists; eexists. split; [rewrite <- app_assoc; reflexivity|].
      split; [rewrite <- app_assoc; reflexivity|].
      repeat split; repeat constructor.
Qed.

(** ** The request adapter *)

Context {Request ResponseWriter : Type}.
Variable Host : Request -> string.

(** X6. The port of the request does not matter: a request for
    [domain:port] and a request for [domain], the domain having no colon,
    reach the next handler in the same state, after the same
    reconciliation. *)
Theorem ServeHTTP_port_insensitive a h (w : ResponseWriter) (r1 r2 : Request)
        (next : ResponseWriter -> Request -> M W (option error)) s
        (domain port : string) :
  Host r1 = domain +:+ ":" +:+ port ->
  no_colon port = true ->
  Host r2 = domain ->
  no_colon domain = true ->
  exists s' : State W,
    ServeHTTP ParseIP Host a h w r1 next s = next w r1 s' /\
    ServeHTTP ParseIP Host a h w r2 next s = next w r2 s' /\
    calls s' = calls (snd (handleDomain a h domain s)).
Proof.
  intros H1 Hport H2 Hdomain. unfold ServeHTTP. cbv zeta.
  rewrite H1, H2, (extractDomain_split _ _ Hport).
  assert (extractDomain domain = domain) as ->.
  { unfold extractDomain. rewrite (LastIndex_no_colon _ Hdomain). reflexivity. }
  unfold bind.
  destruct (handleDomain a h domain s) as [[err|] s1]; run_go.
  - eexists. split; [reflexivity|]. split; reflexivity.
  - exists s1. auto.
Qed.

(** ** Provisioning *)

Lemma Provision_success_inv a (order : list (string * ProviderConfig))
      (lg : list LogEntry) :
  fst (fst (Provision order a lg)) = None ->
  (CaddyIP a = "" \/ is_Some (ParseIP (CaddyIP a))) /\
  Provision order a lg = provisionProviders (set_clients ∅ a) order lg.
Proof.
  intros Hok.
  assert (CaddyIP a = "" \/ is_Some (ParseIP (CaddyIP a))) as Hip.
  { destruct (String.eqb_spec (CaddyIP a) "") as [E|E]; [auto|].
    destruct (ParseIP (CaddyIP a)) as [parsed|] eqn:Hparse; [eauto|].
    rewrite (caddy_ip_check_fails ParseIP NewOPNsenseProvider a E Hparse) in Hok.
    discriminate. }
  split; [exact Hip|].
  apply (caddy_ip_check_passes ParseIP NewOPNsenseProvider a Hip).
Qed.

Lemma provisionProviders_error_inv a (order : list (string * ProviderConfig))
      (lg : list LogEntry) (e : error) :
  fst (fst (provisionProviders a order lg)) = Some e ->
  exists name config err,
    (name, config) ∈ order /\
    createProvider NewOPNsenseProvider a config = inr err /\
    e = wrapError ("failed to create provider " +:+ name +:+ ": ") err.
Proof.
  revert a lg. induction order as [|[n0 c0] rest IH]; intros a lg.
  - discriminate.
  - cbn [provisionProviders].
    destruct (createProvider NewOPNsenseProvider a c0) as [client|err0] eqn:Hc0.
    + intros Hres. destruct (IH _ _ Hres) as (name & config & err & Hin & Hfail & ->).
      exists name, config, err. split; [apply elem_of_cons; auto|].
      split; [|reflexivity].
      rewrite <- Hfail. apply createProvider_Debug. reflexivity.
    + intros [= <-]. exists n0, c0, err0.
      split; [apply elem_of_cons; auto|]. auto.
Qed.

(** The registry after a provisioning that succeeded. *)
Lemma Provision_registry a (order : list (string * ProviderConfig))
      (lg : list LogEntry) (name : string) (c : DNSService W) :
  order ≡ₚ map_to_list (Providers a) ->
  fst (fst (Provision order a lg)) = None ->
  clients (snd (fst (Provision order a lg))) !! name = Some c <->
  exists config,
    Providers a !! name = Some config /\
    createProvider NewOPNsenseProvider a config = inl c.
Proof.
  intros Hperm Hok.
  destruct (Provision_success_inv _ _ _ Hok) as [_ Hloop].
  rewrite Hloop in Hok |- *.
  destruct (provisionProviders_all NewOPNsenseProvider _ _ _ Hok) as [Hout Hin].
  specialize (Hin (order_NoDup _ _ Hperm)).
  split.
  - intros Hlook.
    destruct (decide (name ∈ order.*1)) as [Hname | Hname].
    + apply list_elem_of_fmap in Hname as ([n config] & -> & Hname). cbn [fst] in *.
      destruct (Hin n config Hname) as (c' & Hc' & Hlook').
      rewrite Hlook' in Hlook. injection Hlook as <-.
      exists config. split; [apply (order_lookup _ _ _ _ Hperm); exact Hname|].
      exact Hc'.
    + rewrite (Hout name Hname) in Hlook. cbn [clients set_clients] in Hlook.
      rewrite lookup_empty in Hlook. discriminate.
  - intros (config & Hconf & Hc).
    apply (order_lookup _ _ _ _ Hperm) in Hconf.
    destruct (Hin name config Hconf) as (c' & Hc' & Hlook').
    rewrite Hlook'. f_equal.
    assert (inl c' = (inl c : DNSService W + error)) as [= ->]; [|reflexivity].
    rewrite <- Hc', <- Hc. reflexivity.
Qed.

(** Provisioning succeeds exactly when the default IP passes its check
    and every configured provider can be constructed. *)
Lemma Provision_success_iff a (order : list (string * ProviderConfig))
      (lg : list LogEntry) :
  order ≡ₚ map_to_list (Providers a) ->
  fst (fst (Provision order a lg)) = None <->
  (CaddyIP a = "" \/ is_Some (ParseIP (CaddyIP a))) /\
  (forall name config, Providers a !! name = Some config ->
     exists c, createProvider NewOPNsenseProvider a config = inl c).
Proof.
  intros Hperm. split.
  - intros Hok. destruct (Provision_success_inv _ _ _ Hok) as [Hip Hloop].
    split; [exact Hip|]. intros name config Hconf.
    rewrite Hloop in Hok.
    destruct (provisionProviders_all NewOPNsenseProvider _ _ _ Hok) as [_ Hin].
    destruct (Hin (order_NoDup _ _ Hperm) name config) as (c & Hc & _).
    { apply (order_lookup _ _ _ _ Hperm). exact Hconf. }
    exists c. exact Hc.
  - intros [Hip Hall].
    rewrite (caddy_ip_check_passes ParseIP NewOPNsenseProvider a Hip).
    destruct (fst (fst (provisionProviders (set_clients ∅ a) order lg))) as [e|] eqn:Hres;
      [|reflexivity].
    destruct (provisionProviders_error_inv _ _ _ _ Hres)
      as (name & config & err & Hin & Hfail & _).
    apply (order_lookup _ _ _ _ Hperm) in Hin.
    destruct (Hall name config Hin) as [c Hc].
    assert (createProvider NewOPNsenseProvider (set_clients ∅ a) config =
            createProvider NewOPNsenseProvider a config) as E
        by (apply createProvider_Debug; reflexivity).
    congruence.
Qed.

(** X7. After a provisioning that succeeded, the registry holds under
    each configured name the instance constructed from its configuration,
    and nothing else: the clients that the [App] held before are gone. *)
Theorem Provision_registry_exact a (order : list (string * ProviderConfig))
        (lg : list LogEntry) :
  order ≡ₚ map_to_list (Providers a) ->
  fst (fst (Provision order a lg)) = None ->
  let a' := snd (fst (Provision order a lg)) in
  (forall name c,
      clients a' !! name = Some c <->
      exists config, Providers a !! name = Some config /\
                     createProvider NewOPNsenseProvider a config = inl c) /\
  (forall name, clients a' !! name = None <-> Providers a !! name = None) /\
  (forall stale, Provision order (set_clients stale a) lg = Provision order a lg).
Proof.
  intros Hperm Hok a'. subst a'. split; [|split].
  - intros name c. apply Provision_registry; assumption.
  - intros name. split.
    + intros Hnone.
      destruct (Providers a !! name) as [config|] eqn:Hconf; [|reflexivity].
      destruct (proj1 (Provision_success_iff _ _ _ Hperm) Hok) as [_ Hall].
      destruct (Hall name config Hconf) as [c Hc].
      assert (clients (snd (fst (Provision order a lg))) !! name = Some c) as Hsome.
      { apply Provision_registry; [assumption..|]. exists config. auto. }
      congruence.
    + intros Hnone.
      destruct (clients (snd (fst (Provision order a lg))) !! name) as [c|] eqn:Hlook;
        [|reflexivity].
      apply Provision_registry in Hlook as (config & Hconf & _); [|assumption..].
      congruence.
  - intros stale. reflexivity.
Qed.

(** X8. The order in which Go's [range] yields the providers decides
    neither whether provisioning succeeds nor, when it does, what the
    registry holds. *)
Theorem Provision_order_independent a (order1 order2 : list (string * ProviderConfig))
        (lg1 lg2 : list LogEntry) :
  order1 ≡ₚ map_to_list (Providers a) ->
  order2 ≡ₚ map_to_list (Providers a) ->
  (fst (fst (Provision order1 a lg1)) = None <->
   fst (fst (Provision order2 a lg2)) = None) /\
  (fst (fst (Provision order1 a lg1)) = None ->
   clients (snd (fst (Provision order1 a lg1))) =
   clients (snd (fst (Provision order2 a lg2)))).
Proof.
  intros H1 H2.
  assert (fst (fst (Provision order1 a lg1)) = None <->
          fst (fst (Provision order2 a lg2)) = None) as Hiff.
  { rewrite (Provision_success_iff _ _ lg1 H1), (Provision_success_iff _ _ lg2 H2).
    reflexivity. }
  split; [exact Hiff|].
  intros Hok1. pose proof (proj1 Hiff Hok1) as Hok2.
  apply map_eq. intros name. apply option_eq. intros c.
  rewrite (Provision_registry _ _ _ name c H1 Hok1).
  rewrite (Provision_registry _ _ _ name c H2 Hok2).
  reflexivity.
Qed.

(** X9. Every error of [Provision] is one of two: the default IP is not
    empty and [net.ParseIP] rejects it, or the construction of a
    configured provider failed, and then the error wraps the error of the
    construction behind the name of that provider. *)
Theorem Provision_error_forms a (order : list (string * ProviderConfig))
        (lg : list LogEntry) (e : error) :
  order ≡ₚ map_to_list (Providers a) ->
  fst (fst (Provision order a lg)) = Some e ->
  (CaddyIP a <> "" /\ ParseIP (CaddyIP a) = None /\
   e = errorString ("invalid caddy_ip address: " +:+ CaddyIP a)) \/
  (exists name config err,
      Providers a !! name = Some config /\
      createProvider NewOPNsenseProvider a config = inr err /\
      e = wrapError ("failed to create provider " +:+ name +:+ ": ") err /\
      Unwrap e = Some err).
Proof.
  intros Hperm Hres.
  destruct (String.eqb_spec (CaddyIP a) "") as [E|E].
  - right. rewrite (caddy_ip_check_passes ParseIP NewOPNsenseProvider a (or_introl E)) in Hres.
    destruct (provisionProviders_error_inv _ _ _ _ Hres)
      as (name & config & err & Hin & Hfail & ->).
    exists name, config, err.
    split; [apply (order_lookup _ _ _ _ Hperm); exact Hin|].
    split; [|auto]. rewrite <- Hfail. apply createProvider_Debug. reflexivity.
  - destruct (ParseIP (CaddyIP a)) as [parsed|] eqn:Hparse.
    + right.
      assert (CaddyIP a = "" \/ is_Some (ParseIP (CaddyIP a))) as Hip
          by (right; rewrite Hparse; eauto).
      rewrite (caddy_ip_check_passes ParseIP NewOPNsenseProvider a Hip) in Hres.
      destruct (provisionProviders_error_inv _ _ _ _ Hres)
        as (name & config & err & Hin & Hfail & ->).
      exists name, config, err.
      split; [apply (order_lookup _ _ _ _ Hperm); exact Hin|].
      split; [|auto]. rewrite <- Hfail. apply createProvider_Debug. reflexivity.
    + left. rewrite (caddy_ip_check_fails ParseIP NewOPNsenseProvider a E Hparse) in Hres.
      injection Hres as <-. auto.
Qed.



Lemma Provision_keeps_config_aux a (order : list (string * ProviderConfig))
      (lg : list LogEntry) :
  let a' := snd (fst (Provision order a lg)) in
  Providers a' = Providers a /\ CaddyIP a' = CaddyIP a /\ Debug a' = Debug a.
Proof.
  cbv zeta. unfold Provision. cbv zeta.
  change (CaddyIP (set_clients ∅ a)) with (CaddyIP a).
  pose proof (provisionProviders_config NewOPNsenseProvider (set_clients ∅ a) order lg)
    as Hloop.
  destruct (negb (String.eqb (CaddyIP a) "")); [|exact Hloop].
  destruct (ParseIP (CaddyIP a)); [exact Hloop|].
  cbn. auto.
Qed.

(** X11. Whether it succeeds or fails, [Provision] writes the registry
    only: the configured providers, the default IP and the debug flag of
    the [App] are as they were. *)
Theorem Provision_keeps_config a (order : list (string * ProviderConfig))
        (lg : list LogEntry) :
  let a' := snd (fst (Provision order a lg)) in
  Providers a' = Providers a /\ CaddyIP a' = CaddyIP a /\ Debug a' = Debug a.
Proof. exact (Provision_keeps_config_aux a order lg). Qed.

(** ** Provisioning a handler *)

Lemma Provision_registry_is_Some a (order : list (string * ProviderConfig))
      (lg : list LogEntry) (name : string) :
  order ≡ₚ map_to_list (Providers a) ->
  fst (fst (Provision order a lg)) = None ->
  is_Some (clients (snd (fst (Provision order a lg))) !! name) <->
  is_Some (Providers a !! name).
Proof.
  intros Hperm Hok. split.
  - intros [c Hc]. apply Provision_registry in Hc as (config & Hconf & _); eauto.
  - intros [config Hconf].
    destruct (proj1 (Provision_success_iff _ _ _ Hperm) Hok) as [_ Hall].
    destruct (Hall name config Hconf) as [c Hc]. exists c.
    apply Provision_registry; eauto.
Qed.

(** X12. On an [App] whose provisioning succeeded, [Handler.Provision]
    accepts a handler exactly when its provider name is not empty and is
    the name of a configured provider, and binds the handler to that
    [App]; an empty name is refused as missing, even if a provider is
    configured under the empty name, and a name that is not configured is
    refused as not found. *)
Theorem Handler_Provision_configured a (order : list (string * ProviderConfig))
        (lg : list LogEntry) h :
  order ≡ₚ map_to_list (Providers a) ->
  fst (fst (Provision order a lg)) = None ->
  let a' := snd (fst (Provision order a lg)) in
  (Handler_Provision (Some a') h = inl a' <->
   Provider h <> "" /\ is_Some (Providers a !! Provider h)) /\
  (Provider h = "" ->
   Handler_Provision (Some a') h = inr (errorString "provider name is required")) /\
  (Provider h <> "" -> Providers a !! Provider h = None ->
   Handler_Provision (Some a') h =
     inr (errorString ("provider " +:+ Provider h +:+ " not found in global configuration"))).
Proof.
  intros Hperm Hok a'.
  pose proof (Provision_registry_is_Some a order lg (Provider h) Hperm Hok) as Hreg.
  fold a' in Hreg. unfold Handler_Provision.
  destruct (String.eqb_spec (Provider h) "") as [E|E].
  - split; [|split; [reflexivity|contradiction]].
    split; [discriminate|]. intros [Hne _]. contradiction.
  - destruct (clients a' !! Provider h) as [p|] eqn:Hp.
    + assert (is_Some (Providers a !! Provider h)) as Hconf by (apply Hreg; eauto).
      split; [tauto|]. split; [contradiction|].
      intros _ Hnone. rewrite Hnone in Hconf. destruct Hconf. discriminate.
    + split; [|split; [contradiction|reflexivity]].
      split; [discriminate|]. intros [_ Hconf]. apply Hreg in Hconf.
      destruct Hconf. discriminate.
Qed.

Lemma handleDomain_queries a h p (domain : string) s :
  reaches_query a h p ->
  exists ws, calls (snd (handleDomain a h domain s)) =
             (calls s ++ CallFind domain :: ws)%list.
Proof.
  intros Hq. rewrite (handleDomain_query ParseIP a h p domain s Hq). run_go.
  destruct (FindRecord p domain (backend s)) as [[existing [err|]] w]; run_go.
  - eauto.
  - destruct existing as [r|]; run_go.
    + destruct (String.eqb (IP r) (desiredIP a h) && Enabled r); run_go; [eauto|].
      destruct (UpdateRecord p domain (desiredIP a h) w) as [e w']. run_go.
      rewrite <- app_assoc. eauto.
    + destruct (CreateRecord p domain (desiredIP a h) w) as [e w']. run_go.
      rewrite <- app_assoc. eauto.
Qed.

(** X13. From startup to request: when [App.Provision] succeeded and
    [Handler.Provision] accepted the handler, every reconciliation of the
    handler resolves its provider; and if the handler has no override and
    a default IP is configured, that IP was validated at startup, so that
    every reconciliation passes validation and queries the provider. *)
Theorem provisioned_handler_reconciles a (order : list (string * ProviderConfig))
        (lg : list LogEntry) h (a'' : App W) :
  fst (fst (Provision order a lg)) = None ->
  Handler_Provision (Some (snd (fst (Provision order a lg)))) h = inl a'' ->
  exists p,
    clients a'' !! Provider h = Some p /\
    (IPOverride h = "" -> CaddyIP a <> "" ->
     reaches_query a'' h p /\
     forall domain s, exists ws,
       calls (snd (handleDomain a'' h domain s)) =
       (calls s ++ CallFind domain :: ws)%list).
Proof.
  intros Hok Hh.
  destruct (Handler_Provision_resolves _ _ _ Hh) as ([= <-] & _ & [p Hp]).
  exists p. split; [exact Hp|]. intros Hover Hip.
  destruct (Provision_success_inv _ _ _ Hok) as [[Hempty | Hvalid] _]; [contradiction|].
  destruct (Provision_keeps_config_aux a order lg) as (_ & Hcaddy & _).
  assert (reaches_query (snd (fst (Provision order a lg))) h p) as Hq.
  { split; [exact Hp|].
    unfold desiredIP. rewrite Hover. cbn [String.eqb]. rewrite Hcaddy. auto. }
  split; [exact Hq|]. intros domain s. apply (handleDomain_queries _ _ _ _ _ Hq).
Qed.

End Further.
(** ** Parsing the site directive *)

Section CaddyfileProperties.

Context {D : Type}.
Variable Next : D -> bool * D.
Variable NextArg : D -> bool * D.
Variable Val : D -> string.

(** The tokens left: [Next] uses one up when it moves, [NextArg] brings
    none back. *)
Variable remaining : D -> nat.
Hypothesis Next_consumes :
  forall d, fst (Next d) = true -> (remaining (snd (Next d)) < remaining d)%nat.
Hypothesis NextArg_keeps :
  forall d, (remaining (snd (NextArg d)) <= remaining d)%nat.

Local Abbreviation UnmarshalCaddyfile := (Handler_UnmarshalCaddyfile Next NextArg Val).

(** No iteration from [d] on reads an argument. *)
Local Abbreviation no_arg_from d :=
  (forall dm, iterates Next NextArg d dm -> fst (Next dm) = true ->
              fst (NextArg (snd (Next dm))) = false).

Lemma Handler_UnmarshalCaddyfile_loop (fuel : nat) (h : Handler) (d : D) :
  (remaining d < fuel)%nat ->
  exists h' d',
    UnmarshalCaddyfile fuel h d = Some (None, h', d') /\
    IPOverride h' = IPOverride h /\
    (exists dl, iterates Next NextArg d dl /\ fst (Next dl) = false /\ d' = snd (Next dl)) /\
    ((Provider h' = Provider h /\ no_arg_from d) \/
     (exists dn,
         iterates Next NextArg d dn /\
         fst (Next dn) = true /\
         fst (NextArg (snd (Next dn))) = true /\
         Provider h' = Val (snd (NextArg (snd (Next dn)))) /\
         no_arg_from (snd (NextArg (snd (Next dn)))))).
Proof.
  revert h d. induction fuel as [|fuel IH]; intros h d Hfuel; [lia|].
  cbn [Handler_UnmarshalCaddyfile].
  pose proof (Next_consumes d) as Hnext.
  destruct (Next d) as [[|] d1] eqn:HN; cbn [fst snd] in Hnext.
  - pose proof (NextArg_keeps d1) as Harg.
    destruct (NextArg d1) as [arg d2] eqn:HA; cbn [snd] in Harg.
    specialize (Hnext eq_refl).
    assert (forall dm, iterates Next NextArg d2 dm -> iterates Next NextArg d dm) as Hlift.
    { intros dm Hdm. apply iterates_next; rewrite HN; [reflexivity|].
      cbn [snd]. rewrite HA. exact Hdm. }
    destruct (IH (if arg then mkHandler (Val d2) (IPOverride h) else h) d2)
      as (h' & d' & Hrun & Hover & (dl & Hdl & Hstop & Hd') & Hprov); [lia|].
    exists h', d'. split; [exact Hrun|].
    split; [destruct arg; exact Hover|].
    split; [exists dl; auto|].
    destruct Hprov as [[Hsame Hnone] | (dn & Hdn & Hn & Ha & Hval & Hnone)].
    + destruct arg; cbn [Provider] in Hsame.
      * right. exists d. rewrite HN. cbn [fst snd]. rewrite HA. cbn [fst snd].
        split; [apply iterates_first|]. auto.
      * left. split; [exact Hsame|].
        intros dm Hdm. inversion Hdm as [|? ? Hmore Hrest]; subst.
        -- intros _. rewrite HN. cbn [snd]. rewrite HA. reflexivity.
        -- rewrite HN in Hrest. cbn [snd] in Hrest. rewrite HA in Hrest.
           apply Hnone. exact Hrest.
    + right. exists dn. split; [apply Hlift; exact Hdn|]. auto.
  - exists h, d1. split; [reflexivity|]. split; [reflexivity|].
    split; [exists d; rewrite HN; split; [apply iterates_first|auto]|].
    left. split; [reflexivity|].
    intros dm Hdm. inversion Hdm as [|? ? Hmore Hrest]; subst.
    + rewrite HN. discriminate.
    + rewrite HN in Hmore. discriminate.
Qed.

(** X14. On a dispenser that uses up its tokens, [Handler.UnmarshalCaddyfile]
    returns, and returns no error, whatever the tokens are.  It stops at
    the first iteration whose [d.Next()] returns false and leaves the
    dispenser there; it leaves the IP override of the handler as it was;
    and the provider name is the token under the cursor after the last
    [d.NextArg()] of the loop that returned true, or the name the handler
    had when no [d.NextArg()] of the loop returned true. *)
Theorem Handler_UnmarshalCaddyfile_returns (fuel : nat) (h : Handler) (d : D) :
  (remaining d < fuel)%nat ->
  exists h' d',
    UnmarshalCaddyfile fuel h d = Some (None, h', d') /\
    IPOverride h' = IPOverride h /\
    (exists dl, iterates Next NextArg d dl /\ fst (Next dl) = false /\ d' = snd (Next dl)) /\
    ((Provider h' = Provider h /\
      forall dm, iterates Next NextArg d dm -> fst (Next dm) = true ->
                 fst (NextArg (snd (Next dm))) = false) \/
     (exists dn,
         iterates Next NextArg d dn /\
         fst (Next dn) = true /\
         fst (NextArg (snd (Next dn))) = true /\
         Provider h' = Val (snd (NextArg (snd (Next dn)))) /\
         forall dm, iterates Next NextArg (snd (NextArg (snd (Next dn)))) dm ->
                    fst (Next dm) = true ->
                    fst (NextArg (snd (Next dm))) = false)).
Proof. exact (Handler_UnmarshalCaddyfile_loop fuel h d). Qed.

(** X15. A handler that [parseHandler] builds from a Caddyfile has no IP
    override: the desired IP of all its reconciliations is the global
    [caddy_ip]. *)
Theorem parseHandler_no_override (fuel : nat) (d : D) :
  (remaining d < fuel)%nat ->
  exists m d',
    parseHandler Next NextArg Val fuel d = Some (inl m, d') /\
    IPOverride m = "" /\
    forall (W : Type) (a : App W), desiredIP a m = CaddyIP a.
Proof.
  intros Hfuel.
  destruct (Handler_UnmarshalCaddyfile_loop fuel (mkHandler "" "") d Hfuel)
    as (m & d' & Hrun & Hover & _).
  exists m, d'. unfold parseHandler. cbv zeta. rewrite Hrun.
  split; [reflexivity|]. split; [exact Hover|].
  intros W a. unfold desiredIP. cbv zeta. rewrite Hover. reflexivity.
Qed.

End CaddyfileProperties.

(** ** The further properties on the sample configurations *)

Lemma handleDomain_validation_witness :
  clients sampleApp !! Provider ghostHandler = None /\
  handleDomain sampleParseIP sampleApp ghostHandler "svc.local" emptyState =
    (Some (ProviderNotFound "ghost"), emptyState).
Proof.
  split; [reflexivity|].
  exact (proj1 (handleDomain_validation sampleParseIP sampleApp ghostHandler
                  "svc.local" emptyState) eq_refl).
Defined.

Lemma handleDomain_nil_queried_witness :
  fst (handleDomain sampleParseIP sampleApp sampleHandler "svc.local" emptyState) = None /\
  exists p, reaches_query sampleParseIP sampleApp sampleHandler p /\
    exists ws,
      calls (snd (handleDomain sampleParseIP sampleApp sampleHandler "svc.local"
                               emptyState)) =
      (calls emptyState ++ CallFind "svc.local" :: ws)%list.
Proof.
  split; [reflexivity|].
  exact (handleDomain_nil_queried sampleParseIP sampleApp sampleHandler
           "svc.local" emptyState eq_refl).
Defined.

Lemma ServeHTTP_port_insensitive_witness :
  no_colon "443" = true /\ no_colon "svc.local" = true /\
  exists s',
    sampleServe sampleApp sampleHandler "svc.local:443" emptyState =
      sampleNext tt "svc.local:443" s' /\
    sampleServe sampleApp sampleHandler "svc.local" emptyState =
      sampleNext tt "svc.local" s'.
Proof.
  split; [reflexivity|]. split; [reflexivity|].
  destruct (ServeHTTP_port_insensitive sampleParseIP (fun r : string => r)
              sampleApp sampleHandler tt "svc.local:443" "svc.local" sampleNext
              emptyState "svc.local" "443" eq_refl eq_refl eq_refl eq_refl)
    as (s' & H1 & H2 & _).
  exists s'. split; [exact H1|exact H2].
Defined.

Lemma sample_Provision_ok :
  fst (fst (Provision sampleParseIP sampleNewOPNsenseProvider
                      (map_to_list (Providers sampleApp)) sampleApp [])) = None.
Proof. reflexivity. Qed.

Lemma Provision_registry_exact_witness :
  map_to_list (Providers sampleApp) ≡ₚ map_to_list (Providers sampleApp) /\
  fst (fst (Provision sampleParseIP sampleNewOPNsenseProvider
                      (map_to_list (Providers sampleApp)) sampleApp [])) = None /\
  Providers sampleApp !! "ghost" = None /\
  clients (snd (fst (Provision sampleParseIP sampleNewOPNsenseProvider
                               (map_to_list (Providers sampleApp)) sampleApp [])))
    !! "ghost" = None.
Proof.
  split; [reflexivity|]. split; [exact sample_Provision_ok|]. split; [reflexivity|].
  exact (proj2 (proj1 (proj2 (Provision_registry_exact sampleParseIP
                                sampleNewOPNsenseProvider sampleApp
                                (map_to_list (Providers sampleApp)) []
                                (reflexivity _) sample_Provision_ok))
                      "ghost") eq_refl).
Defined.

Lemma Provision_order_independent_witness :
  map_to_list (Providers mixedApp) ≡ₚ map_to_list (Providers mixedApp) /\
  reverse (map_to_list (Providers mixedApp)) ≡ₚ map_to_list (Providers mixedApp) /\
  (fst (fst (Provision sampleParseIP sampleNewOPNsenseProvider
                       (map_to_list (Providers mixedApp)) mixedApp [])) = None <->
   fst (fst (Provision sampleParseIP sampleNewOPNsenseProvider
                       (reverse (map_to_list (Providers mixedApp))) mixedApp [])) = None).
Proof.
  split; [reflexivity|]. split; [apply reverse_Permutation|].
  exact (proj1 (Provision_order_independent sampleParseIP sampleNewOPNsenseProvider
                  mixedApp (map_to_list (Providers mixedApp))
                  (reverse (map_to_list (Providers mixedApp))) [] []
                  (reflexivity _) (reverse_Permutation _))).
Defined.

Lemma Provision_error_forms_witness :
  map_to_list (Providers mixedApp) ≡ₚ map_to_list (Providers mixedApp) /\
  fst (fst (Provision sampleParseIP sampleNewOPNsenseProvider
                      (map_to_list (Providers mixedApp)) mixedApp [])) =
    Some (wrapError "failed to create provider pi: "
                    (errorString "unsupported provider type: pihole")) /\
  exists name config err,
    Providers mixedApp !! name = Some config /\
    createProvider sampleNewOPNsenseProvider mixedApp config = inr err.
Proof.
  assert (fst (fst (Provision sampleParseIP sampleNewOPNsenseProvider
                              (map_to_list (Providers mixedApp)) mixedApp [])) =
          Some (wrapError "failed to create provider pi: "
                          (errorString "unsupported provider type: pihole"))) as Hres
      by reflexivity.
  split; [reflexivity|]. split; [exact Hres|].
  destruct (Provision_error_forms sampleParseIP sampleNewOPNsenseProvider mixedApp
              (map_to_list (Providers mixedApp)) [] _ (reflexivity _) Hres)
    as [(Hne & Hbad & _) | (name & config & err & Hconf & Hfail & _)].
  - discriminate Hbad.
  - exists name, config, err. split; [exact Hconf|exact Hfail].
Defined.


Lemma Handler_Provision_configured_witness :
  map_to_list (Providers sampleApp) ≡ₚ map_to_list (Providers sampleApp) /\
  fst (fst (Provision sampleParseIP sampleNewOPNsenseProvider
                      (map_to_list (Providers sampleApp)) sampleApp [])) = None /\
  Provider ghostHandler <> "" /\
  Providers sampleApp !! Provider ghostHandler = None /\
  Handler_Provision
    (Some (snd (fst (Provision sampleParseIP sampleNewOPNsenseProvider
                               (map_to_list (Providers sampleApp)) sampleApp []))))
    ghostHandler =
    inr (errorString "provider ghost not found in global configuration").
Proof.
  assert (Provider ghostHandler <> "") as Hne by discriminate.
  split; [reflexivity|]. split; [exact sample_Provision_ok|]. split; [exact Hne|].
  split; [reflexivity|].
  exact (proj2 (proj2 (Handler_Provision_configured sampleParseIP
                         sampleNewOPNsenseProvider sampleApp
                         (map_to_list (Providers sampleApp)) [] ghostHandler
                         (reflexivity _) sample_Provision_ok))
               Hne eq_refl).
Defined.

Lemma provisioned_handler_reconciles_witness :
  fst (fst (Provision sampleParseIP sampleNewOPNsenseProvider
                      (map_to_list (Providers sampleApp)) sampleApp [])) = None /\
  Handler_Provision
    (Some (snd (fst (Provision sampleParseIP sampleNewOPNsenseProvider
                               (map_to_list (Providers sampleApp)) sampleApp []))))
    sampleHandler =
    inl (snd (fst (Provision sampleParseIP sampleNewOPNsenseProvider
                             (map_to_list (Providers sampleApp)) sampleApp []))) /\
  exists p,
    clients (snd (fst (Provision sampleParseIP sampleNewOPNsenseProvider
                                 (map_to_list (Providers sampleApp)) sampleApp [])))
      !! Provider sampleHandler = Some p.
Proof.
  split; [exact sample_Provision_ok|]. split; [reflexivity|].
  destruct (provisioned_handler_reconciles sampleParseIP sampleNewOPNsenseProvider
              sampleApp (map_to_list (Providers sampleApp)) [] sampleHandler _
              sample_Provision_ok eq_refl) as (p & Hp & _).
  exists p. exact Hp.
Defined.

Lemma sampleDispenser_consumes (d : string * list string) :
  fst (sampleDispenserNext d) = true ->
  (length (snd (snd (sampleDispenserNext d))) < length (snd d))%nat.
Proof. destruct d as [cur [|t rest]]; cbn; [discriminate|lia]. Qed.

Lemma sampleDispenser_keeps (d : string * list string) :
  (length (snd (snd (sampleDispenserNext d))) <= length (snd d))%nat.
Proof. destruct d as [cur [|t rest]]; cbn; lia. Qed.

Lemma Handler_UnmarshalCaddyfile_returns_witness :
  (length (snd ("", ["local_dns"; "opnsense"])) < 3)%nat /\
  exists h' d',
    Handler_UnmarshalCaddyfile sampleDispenserNext sampleDispenserNext sampleDispenserVal
                               3 overrideHandler ("", ["local_dns"; "opnsense"]) =
      Some (None, h', d') /\
    IPOverride h' = "10.0.0.7".
Proof.
  assert (length (snd ("", ["local_dns"; "opnsense"])) < 3)%nat as Hfuel by (cbn; lia).
  split; [exact Hfuel|].
  destruct (Handler_UnmarshalCaddyfile_returns sampleDispenserNext sampleDispenserNext
              sampleDispenserVal (fun d => length (snd d))
              sampleDispenser_consumes sampleDispenser_keeps
              3 overrideHandler ("", ["local_dns"; "opnsense"]) Hfuel)
    as (h' & d' & Hrun & Hover & _).
  exists h', d'. split; [exact Hrun|exact Hover].
Defined.

Lemma parseHandler_no_override_witness :
  (length (snd ("", ["local_dns"; "opnsense"])) < 3)%nat /\
  exists m d',
    parseHandler sampleDispenserNext sampleDispenserNext sampleDispenserVal
                 3 ("", ["local_dns"; "opnsense"]) = Some (inl m, d') /\
    desiredIP sampleApp m = "192.168.1.50".
Proof.
  assert (length (snd ("", ["local_dns"; "opnsense"])) < 3)%nat as Hfuel by (cbn; lia).
  split; [exact Hfuel|].
  destruct (parseHandler_no_override sampleDispenserNext sampleDispenserNext
              sampleDispenserVal (fun d => length (snd d))
              sampleDispenser_consumes sampleDispenser_keeps
              3 ("", ["local_dns"; "opnsense"]) Hfuel)
    as (m & d' & Hrun & _ & Hip).
  exists m, d'. split; [exact Hrun|]. exact (Hip _ sampleApp).
Defined.

Example parseHandler_sample :
  parseHandler sampleDispenserNext sampleDispenserNext sampleDispenserVal
               3 ("", ["local_dns"; "opnsense"]) =
    Some (inl (mkHandler "opnsense" ""), ("opnsense", [])).
Proof. reflexivity. Qed.
